(** * genmanifest.py: multi-architecture manifest generation

    A shallow embedding of [src/genmanifest.py] and the properties of its
    collector, CI context resolver, grouper and manifest writer.

    Python [str] values are Rocq strings; every character stands for one code
    point below 256.  Python dictionaries keep insertion order and are
    association lists whose keys are distinct.  JSON numbers are integers.
    What the interpreter and the operating system decide (directory
    traversal, reading and decoding a file, opening a file for writing,
    [str()] of a value that is not a string) is a parameter of the model. *)

From Stdlib Require Import String Ascii List ZArith Lia Bool.
From stdpp Require Import gmap strings list fin_maps.

Open Scope string_scope.
Open Scope list_scope.
Open Scope stdpp_scope.

(** ** Python string methods *)

Module PyStr.

(** [str.isspace] of one character, for code points below 256. *)
Definition isspace (c : ascii) : bool :=
  let n := nat_of_ascii c in
  ((9 <=? n)%nat && (n <=? 13)%nat) || ((28 <=? n)%nat && (n <=? 32)%nat)
  || (n =? 133)%nat || (n =? 160)%nat.

(** [s.lstrip()] *)
Fixpoint lstrip (s : string) : string :=
  match s with
  | EmptyString => EmptyString
  | String c s' => if isspace c then lstrip s' else s
  end.

(** [s.rstrip()] *)
Fixpoint rstrip (s : string) : string :=
  match s with
  | EmptyString => EmptyString
  | String c s' =>
      match rstrip s' with
      | EmptyString => if isspace c then EmptyString else String c EmptyString
      | r => String c r
      end
  end.

(** [s.strip()] *)
Definition strip (s : string) : string := lstrip (rstrip s).

(** Truth value of a string: the empty string is false. *)
Definition truthy (s : string) : bool :=
  match s with
  | EmptyString => false
  | String _ _ => true
  end.

(** [s.split(sep)] for a separator of one character. *)
Fixpoint split (sep : ascii) (s : string) : list string :=
  match s with
  | EmptyString => [EmptyString]
  | String c s' =>
      if Ascii.eqb c sep then EmptyString :: split sep s'
      else match split sep s' with
           | [] => [String c EmptyString]
           | piece :: pieces => String c piece :: pieces
           end
  end.

(** [s.startswith(p)] *)
Definition startswith (s p : string) : bool := String.prefix p s.

(** [s.endswith(suffix)] *)
Definition endswith (s suffix : string) : bool :=
  (String.length suffix <=? String.length s)%nat
  && String.eqb
       (substring (String.length s - String.length suffix)
                  (String.length suffix) s)
       suffix.

(** Scan for [s.replace(old, new)] with [old] not empty: [skip] characters
    of an occurrence already replaced are still to be dropped. *)
Fixpoint replace_scan (old new : string) (skip : nat) (s : string) : string :=
  match s with
  | EmptyString => EmptyString
  | String c s' =>
      match skip with
      | S k => replace_scan old new k s'
      | O =>
          if String.prefix old s
          then new +:+ replace_scan old new (String.length old - 1) s'
          else String c (replace_scan old new 0 s')
      end
  end.

(** With an empty [old], Python puts [new] before every character and at
    the end. *)
Fixpoint replace_empty (new s : string) : string :=
  match s with
  | EmptyString => new
  | String c s' => new +:+ String c (replace_empty new s')
  end.

(** [s.replace(old, new)] *)
Definition replace (s old new : string) : string :=
  match old with
  | EmptyString => replace_empty new s
  | String _ _ => replace_scan old new 0 s
  end.

Fixpoint count_scan (sub : string) (skip : nat) (s : string) : nat :=
  match s with
  | EmptyString => 0
  | String c s' =>
      match skip with
      | S k => count_scan sub k s'
      | O =>
          if String.prefix sub s
          then S (count_scan sub (String.length sub - 1) s')
          else count_scan sub 0 s'
      end
  end.

(** [s.count(sub)]: occurrences that do not overlap. *)
Definition count (s sub : string) : nat :=
  match sub with
  | EmptyString => S (String.length s)
  | String _ _ => count_scan sub 0 s
  end.

(** [s * n] *)
Fixpoint mul (s : string) (n : nat) : string :=
  match n with
  | O => EmptyString
  | S k => s +:+ mul s k
  end.

End PyStr.

(** ** [os.path] on a POSIX host *)

Definition os_sep : string := "/".

(** [os.path.join(a, b)] *)
Definition os_path_join (a b : string) : string :=
  if PyStr.startswith b os_sep then b
  else if negb (PyStr.truthy a) || PyStr.endswith a os_sep then a +:+ b
  else a +:+ os_sep +:+ b.

(** [os.path.basename(p)]: what follows the last separator. *)
Definition os_path_basename (p : string) : string :=
  List.last (PyStr.split "/" p) EmptyString.

(** ** Decoded JSON values and dictionaries *)

#[local] Unset Elimination Schemes.

Inductive json : Type :=
| JNull
| JBool (b : bool)
| JNum (n : Z)
| JStr (s : string)
| JArr (items : list json)
| JObj (fields : list (string * json)).

#[local] Set Elimination Schemes.

(** A dictionary with string keys, in insertion order. *)
Definition dict : Type := list (string * json).

(** [d.get(key)] as an option; [None] when the key is absent. *)
Fixpoint dict_lookup (key : string) (d : dict) : option json :=
  match d with
  | [] => None
  | (k, v) :: d' => if String.eqb k key then Some v else dict_lookup key d'
  end.

(** [d.get(key, dflt)] *)
Definition dict_get (d : dict) (key : string) (dflt : json) : json :=
  match dict_lookup key d with
  | Some v => v
  | None => dflt
  end.

(** [d[key] = v]: an existing key keeps its place. *)
Fixpoint dict_set (key : string) (v : json) (d : dict) : dict :=
  match d with
  | [] => [(key, v)]
  | (k, v0) :: d' =>
      if String.eqb k key then (k, v) :: d' else (k, v0) :: dict_set key v d'
  end.

(** [{**base, **data}]: the items of [data] are stored one after the other. *)
Definition dict_update (base data : dict) : dict :=
  fold_left (fun acc kv => dict_set (fst kv) (snd kv) acc) data base.

(** [v == s] for a string [s]: only the string [s] itself compares equal. *)
Definition eq_str (v : option json) (s : string) : bool :=
  match v with
  | Some (JStr t) => String.eqb t s
  | _ => false
  end.

(** Whether a value can be a dictionary key: lists and dictionaries are
    unhashable. *)
Definition hashable (v : json) : bool :=
  match v with
  | JArr _ | JObj _ => false
  | _ => true
  end.

(** Equality of two hashable values as dictionary keys: [True == 1] and
    [False == 0] in Python. *)
Definition key_eqb (a b : json) : bool :=
  match a, b with
  | JNull, JNull => true
  | JBool x, JBool y => Bool.eqb x y
  | JBool x, JNum n => Z.eqb n (if x then 1 else 0)
  | JNum n, JBool x => Z.eqb n (if x then 1 else 0)
  | JNum m, JNum n => Z.eqb m n
  | JStr s, JStr t => String.eqb s t
  | _, _ => false
  end.

(** ** The interpreter and the operating system *)

(** The exception classes the program can meet.  [OSError] stands for the
    class and its subclasses. *)
Inductive exn_class : Type :=
| JSONDecodeError
| OSError
| UnicodeDecodeError
| ValueError
| TypeError
| AttributeError.

(** What [open(filepath, "r")] followed by [json.load] gives: the decoded
    value, or an exception with its [str()]. *)
Inductive load_result : Type :=
| Loaded (data : json)
| LoadRaises (e : exn_class) (msg : string).

Record host : Type := Host {
  (** [os.walk(top)]: the triples [(root, dirs, files)] in traversal order *)
  os_walk : string -> list (string * list string * list string);
  (** reading and decoding the file at a path *)
  json_load : string -> load_result;
  (** [open(name, "w")]: the exception raised, if any *)
  open_w : string -> option exn_class;
  (** [str(v)] for a value that is not a string *)
  py_str : json -> string
}.

(** [os.environ.get(key, dflt)] *)
Definition environ_get (environ : gmap string string) (key dflt : string)
  : string :=
  default dflt (environ !! key).

(** A value inside an f-string. *)
Definition fstr (h : host) (v : json) : string :=
  match v with
  | JStr s => s
  | _ => py_str h v
  end.

(** ** State and exceptions *)

(** The lines printed so far and the files of the working directory. *)
Record state : Type := State {
  stdout : list string;
  cwd : gmap string string
}.

Inductive outcome (A : Type) : Type :=
| Returns (a : A)
| Raises (e : exn_class).

Arguments Returns {A} a.
Arguments Raises {A} e.

Definition M (A : Type) : Type := state -> state * outcome A.

Definition ret {A : Type} (a : A) : M A := fun st => (st, Returns a).

Definition bind {A B : Type} (c : M A) (k : A -> M B) : M B :=
  fun st =>
    match c st with
    | (st', Returns a) => k a st'
    | (st', Raises e) => (st', Raises e)
    end.

Definition raise {A : Type} (e : exn_class) : M A := fun st => (st, Raises e).

Notation "'let*' x ':=' c 'in' k" := (bind c (fun x => k))
  (at level 10, x name, c at level 100, k at level 200).
Notation "c ;; k" := (bind c (fun _ => k))
  (at level 100, k at level 200, right associativity).

(** [print(line)] *)
Definition print (line : string) : M unit :=
  fun st => (State (stdout st ++ [line]) (cwd st), Returns tt).

(** [with open(name, "w") as yf:] and the writes of its body, whose
    concatenation is [content]. *)
Definition open_write (h : host) (name content : string) : M unit :=
  fun st =>
    match open_w h name with
    | Some e => (st, Raises e)
    | None => (State (stdout st) (<[name := content]> (cwd st)), Returns tt)
    end.

(** [for x in xs: body(x)] *)
Fixpoint for_each {A : Type} (xs : list A) (body : A -> M unit) : M unit :=
  match xs with
  | [] => ret tt
  | x :: xs' => body x ;; for_each xs' body
  end.

(** A loop that updates a local variable [acc]. *)
Fixpoint for_fold {A B : Type} (xs : list A) (acc : B) (body : A -> B -> M B)
  : M B :=
  match xs with
  | [] => ret acc
  | x :: xs' => let* acc' := body x acc in for_fold xs' acc' body
  end.

(** ** The program *)

Definition nl : string := String "010"%char EmptyString.
Definition dquote : string := String "034"%char EmptyString.
Definition backslash : string := String "092"%char EmptyString.

Definition KANIKO_ARTIFACTS_DIR (environ : gmap string string) : string :=
  environ_get environ "KANIKO_ARTIFACTS_DIR" "artifacts/kaniko-build".

(** Lines 13-19: the body of the loop that prints the directory tree. *)
Definition print_tree (top : string) (entry : string * list string * list string)
  : M unit :=
  let '(root, dirs, files) := entry in
  let level := PyStr.count (PyStr.replace root top EmptyString) os_sep in
  let indent := PyStr.mul " " (4 * level) in
  print (indent +:+ os_path_basename root +:+ "/") ;;
  let subindent := PyStr.mul " " (4 * (level + 1)) in
  for_each files (fun f => print (subindent +:+ f)).

(** An exception that [except (json.JSONDecodeError, OSError)] catches. *)
Definition caught (e : exn_class) : bool :=
  match e with
  | JSONDecodeError | OSError => true
  | _ => false
  end.

(** Lines 24-39: one file of the collecting loop. *)
Definition collect_file (h : host) (root filename : string)
    (build_artifacts : list dict) : M (list dict) :=
  if negb (PyStr.endswith filename ".json") then ret build_artifacts
  else
    let filepath := os_path_join root filename in
    match json_load h filepath with
    | Loaded (JObj data) =>
        print ("Valid JSON found: " +:+ filepath) ;;
        ret (build_artifacts
             ++ [dict_update [("filepath", JStr filepath)] data])
    | Loaded _ => raise TypeError
    | LoadRaises e msg =>
        if caught e
        then print ("Invalid JSON: " +:+ filepath +:+ " - " +:+ msg) ;;
             ret build_artifacts
        else raise e
    end.

(** Lines 22-39: all valid JSON artifacts under the top directory. *)
Definition collect (h : host) (top : string) : M (list dict) :=
  for_fold (os_walk h top) []
    (fun entry build_artifacts =>
       let '(root, dirs, files) := entry in
       for_fold files build_artifacts (collect_file h root)).

Definition CI_COMMIT_REF_PROTECTED (environ : gmap string string) : string :=
  environ_get environ "CI_COMMIT_REF_PROTECTED" EmptyString.
Definition CI_COMMIT_TAG (environ : gmap string string) : string :=
  environ_get environ "CI_COMMIT_TAG" EmptyString.
Definition CI_PROJECT_ID (environ : gmap string string) : string :=
  environ_get environ "CI_PROJECT_ID" "UNKNOWN_PROJECT_ID".
Definition CI_COMMIT_SHORT_SHA (environ : gmap string string) : string :=
  environ_get environ "CI_COMMIT_SHORT_SHA" "0000000".
Definition CI_COMMIT_REF_SLUG (environ : gmap string string) : string :=
  environ_get environ "CI_COMMIT_REF_SLUG" EmptyString.

(** Lines 53-56. *)
Definition TARGET_PROJECT (environ : gmap string string) : string :=
  if String.eqb (CI_COMMIT_REF_PROTECTED environ) "true"
     || PyStr.truthy (CI_COMMIT_TAG environ)
  then "release"
  else "prerelease".

(** Lines 59-63: the comma-separated string. *)
Definition TAGS (environ : gmap string string) : string :=
  let TAGS0 := environ_get environ "TAGS" (CI_COMMIT_SHORT_SHA environ) in
  let TAGS1 :=
    if PyStr.truthy (CI_COMMIT_REF_SLUG environ)
    then TAGS0 +:+ "," +:+ CI_COMMIT_REF_SLUG environ
    else TAGS0 in
  if PyStr.truthy (CI_COMMIT_TAG environ)
  then TAGS1 +:+ "," +:+ CI_COMMIT_TAG environ
  else TAGS1.

(** Line 64: [[tag.strip() for tag in TAGS.split(",") if tag.strip()]]. *)
Definition tags_list (environ : gmap string string) : list string :=
  map PyStr.strip
      (List.filter (fun tag => PyStr.truthy (PyStr.strip tag))
                   (PyStr.split "," (TAGS environ))).

(** Line 74: the grouping key of an artifact. *)
Definition dirname_of (artifact : dict) : json :=
  dict_get artifact "dockerfiledirname" (JStr "unknown_directory").

(** Line 75, [grouped_by_dir[dirname].append(artifact)], on a dictionary
    kept as the list of its items in insertion order: a key already there
    gets the artifact at the end of its list, a new key is added last. *)
Fixpoint group_append (dirname : json) (artifact : dict)
    (groups : list (json * list dict)) : list (json * list dict) :=
  match groups with
  | [] => [(dirname, [artifact])]
  | (k, artifacts) :: groups' =>
      if key_eqb k dirname then (k, artifacts ++ [artifact]) :: groups'
      else (k, artifacts) :: group_append dirname artifact groups'
  end.

(** Lines 71-75.  A key that is a list or a dictionary raises [TypeError]. *)
Definition grouped_by_dir (build_artifacts : list dict)
  : M (list (json * list dict)) :=
  for_fold build_artifacts []
    (fun artifact groups =>
       let dirname := dirname_of artifact in
       if hashable dirname then ret (group_append dirname artifact groups)
       else raise TypeError).

(** Line 81. *)
Definition safe_dirname (dirname : string) : string :=
  PyStr.replace (PyStr.replace dirname "/" "_") backslash "_".

(** Lines 84-85: [any(a.get("arch") == arch for a in artifacts)]. *)
Definition has_arch (arch : string) (artifacts : list dict) : bool :=
  existsb (fun a => eq_str (dict_lookup "arch" a) arch) artifacts.

(** Lines 92-93: [next((a for a in artifacts if a.get("arch") == arch), {})]. *)
Definition arch_artifact (arch : string) (artifacts : list dict) : dict :=
  match List.find (fun a => eq_str (dict_lookup "arch" a) arch) artifacts with
  | Some a => a
  | None => []
  end.

(** Line 96. *)
Definition manifest_filename (dirname : string) : string :=
  "manifest_" +:+ safe_dirname dirname +:+ ".yaml".

(** Lines 99-116: everything written to the manifest file, write after
    write. *)
Definition manifest_text (h : host) (environ : gmap string string)
    (dirname : string) (artifacts : list dict) : string :=
  let has_amd64 := has_arch "amd64" artifacts in
  let has_arm64 := has_arch "arm64" artifacts in
  let amd64_artifact := arch_artifact "amd64" artifacts in
  let arm64_artifact := arch_artifact "arm64" artifacts in
  String.concat EmptyString
    ([ "image: test.location.com/" +:+ TARGET_PROJECT environ +:+ "/builds/"
         +:+ CI_PROJECT_ID environ +:+ "/" +:+ dirname +:+ "/merged:"
         +:+ CI_COMMIT_SHORT_SHA environ +:+ nl;
       "tags:" +:+ nl ]
     ++ map (fun t => "  - " +:+ dquote +:+ t +:+ dquote +:+ nl)
            (tags_list environ)
     ++ [ "manifests:" +:+ nl ]
     ++ (if has_amd64 then
           [ "  - image: test.location.com/" +:+ TARGET_PROJECT environ
               +:+ "/builds/" +:+ CI_PROJECT_ID environ +:+ "/" +:+ dirname
               +:+ "/merged:" +:+ CI_COMMIT_SHORT_SHA environ +:+ nl;
             "    platform:" +:+ nl;
             "      architecture: amd64" +:+ nl;
             "      os: "
               +:+ fstr h (dict_get amd64_artifact "platform" (JStr "linux"))
               +:+ nl ]
         else [])
     ++ (if has_arm64 then
           [ "  - image: test.location.com/" +:+ TARGET_PROJECT environ
               +:+ "/builds/" +:+ CI_PROJECT_ID environ +:+ "/" +:+ dirname
               +:+ "/merged:" +:+ CI_COMMIT_SHORT_SHA environ +:+ nl;
             "    platform:" +:+ nl;
             "      architecture: arm64" +:+ nl;
             "      os: "
               +:+ fstr h (dict_get arm64_artifact "platform" (JStr "linux"))
               +:+ nl ]
         else [])).

(** Lines 78-118: the body of the writing loop for one group.  A key that is
    not a string has no [replace] method. *)
Definition write_manifest (h : host) (environ : gmap string string)
    (group : json * list dict) : M unit :=
  let '(key, artifacts) := group in
  match key with
  | JStr dirname =>
      open_write h (manifest_filename dirname)
                 (manifest_text h environ dirname artifacts) ;;
      print ("Generated " +:+ manifest_filename dirname +:+ " for " +:+ dirname)
  | _ => raise AttributeError
  end.

(** Lines 7-118. *)
Definition main (h : host) (environ : gmap string string) : M unit :=
  let top := KANIKO_ARTIFACTS_DIR environ in
  print ("Traversing directory: " +:+ top) ;;
  for_each (os_walk h top) (print_tree top) ;;
  let* build_artifacts := collect h top in
  match build_artifacts with
  | [] => print "No valid JSON artifacts found. Exiting."
  | _ :: _ =>
      print ("TAGS: " +:+ TAGS environ) ;;
      let* groups := grouped_by_dir build_artifacts in
      for_each groups (write_manifest h environ)
  end.

(** ** Words of the specification *)

(** The tags held by a comma-separated string: split on commas, trim each
    piece, drop the empty ones. *)
Definition spec_tags (s : string) : list string :=
  List.filter PyStr.truthy (map PyStr.strip (PyStr.split "," s)).

(** Replacing every character of a string. *)
Fixpoint str_map (f : ascii -> ascii) (s : string) : string :=
  match s with
  | EmptyString => EmptyString
  | String c s' => String (f c) (str_map f s')
  end.

(** A path separator becomes an underscore. *)
Definition sanitize_char (c : ascii) : ascii :=
  if Ascii.eqb c "/" || Ascii.eqb c "092" then "_"%char else c.

(** The image reference template of the specification. *)
Definition image_ref (environ : gmap string string) (dirname : string)
  : string :=
  "test.location.com/" +:+ TARGET_PROJECT environ +:+ "/builds/"
    +:+ CI_PROJECT_ID environ +:+ "/" +:+ dirname +:+ "/merged:"
    +:+ CI_COMMIT_SHORT_SHA environ.

(** The image line, the tags and the [manifests:] header. *)
Definition manifest_head (environ : gmap string string) (dirname : string)
  : string :=
  "image: " +:+ image_ref environ dirname +:+ nl
    +:+ "tags:" +:+ nl
    +:+ String.concat EmptyString
          (map (fun t => "  - " +:+ dquote +:+ t +:+ dquote +:+ nl)
               (tags_list environ))
    +:+ "manifests:" +:+ nl.

(** One entry of the manifest list. *)
Definition manifest_entry (environ : gmap string string) (dirname : string)
    (arch os : string) : string :=
  "  - image: " +:+ image_ref environ dirname +:+ nl
    +:+ "    platform:" +:+ nl
    +:+ "      architecture: " +:+ arch +:+ nl
    +:+ "      os: " +:+ os +:+ nl.

(** The artifact has the architecture [arch]. *)
Definition is_arch (arch : string) (a : dict) : Prop :=
  dict_lookup "arch" a = Some (JStr arch).

(** The block of the architecture [arch] in the document of a group: nothing
    when no artifact has it, else one entry whose [os] comes from the first
    artifact that has it. *)
Definition arch_block (h : host) (environ : gmap string string)
    (dirname arch : string) (artifacts : list dict) (block : string) : Prop :=
  (Forall (fun a => ~ is_arch arch a) artifacts /\ block = EmptyString)
  \/ (exists pre a post,
        artifacts = pre ++ a :: post
        /\ Forall (fun a' => ~ is_arch arch a') pre
        /\ is_arch arch a
        /\ block = manifest_entry environ dirname arch
                     (fstr h (dict_get a "platform" (JStr "linux")))).


(** ** Notions used in the statements and the proofs *)

(** The artifacts stored under the first key equal to [k]. *)
Definition group_members (k : json) (groups : list (json * list dict))
  : list dict :=
  match List.find (fun g => key_eqb (fst g) k) groups with
  | Some g => snd g
  | None => []
  end.

(** No two groups have equal keys, and every key is hashable. *)
Fixpoint distinct_keys (groups : list (json * list dict)) : Prop :=
  match groups with
  | [] => True
  | g :: groups' =>
      hashable (fst g) = true
      /\ Forall (fun g' => key_eqb (fst g) (fst g') = false) groups'
      /\ distinct_keys groups'
  end.

(** The grouping loop, as a fold without the state. *)
Definition group_all (build_artifacts : list dict)
    (groups : list (json * list dict)) : list (json * list dict) :=
  fold_left (fun gs a => group_append (dirname_of a) a gs)
            build_artifacts groups.

(** The block the writer emits for one architecture. *)
Definition written_block (h : host) (environ : gmap string string)
    (dirname arch : string) (artifacts : list dict) : string :=
  if has_arch arch artifacts
  then manifest_entry environ dirname arch
         (fstr h (dict_get (arch_artifact arch artifacts) "platform"
                           (JStr "linux")))
  else EmptyString.

(** The files after a sequence of writes. *)
Definition apply_writes (writes : list (string * string))
    (files : gmap string string) : gmap string string :=
  fold_left (fun m w => <[fst w := snd w]> m) writes files.

(** What the last write to [name] stored, if any. *)
Fixpoint last_write (name : string) (writes : list (string * string))
  : option string :=
  match writes with
  | [] => None
  | w :: writes' =>
      match last_write name writes' with
      | Some content => Some content
      | None => if String.eqb (fst w) name then Some (snd w) else None
      end
  end.

(** The computation prints [lines], performs [writes] and ends with [r],
    from every state. *)
Definition performs {A : Type} (c : M A) (lines : list string)
    (writes : list (string * string)) (r : outcome A) : Prop :=
  forall st,
    c st = (State (stdout st ++ lines) (apply_writes writes (cwd st)), r).

(** The group has a string key whose file can be opened. *)
Definition writable (h : host) (g : json * list dict) : Prop :=
  exists d, fst g = JStr d /\ open_w h (manifest_filename d) = None.

(** The write and the line of one group with a string key. *)
Definition group_writes (h : host) (environ : gmap string string)
    (g : json * list dict) : list (string * string) :=
  match fst g with
  | JStr d => [(manifest_filename d, manifest_text h environ d (snd g))]
  | _ => []
  end.

Definition group_lines (g : json * list dict) : list string :=
  match fst g with
  | JStr d => ["Generated " +:+ manifest_filename d +:+ " for " +:+ d]
  | _ => []
  end.

(** The lines printed for one directory of the traversal. *)
Definition tree_lines (top : string)
    (entry : string * list string * list string) : list string :=
  let '(root, dirs, files) := entry in
  let level := PyStr.count (PyStr.replace root top EmptyString) os_sep in
  (PyStr.mul " " (4 * level) +:+ os_path_basename root +:+ "/")
    :: map (fun f => PyStr.mul " " (4 * (level + 1)) +:+ f) files.

(** The paths of the [.json] files, in traversal order. *)
Definition json_paths (entries : list (string * list string * list string))
  : list string :=
  flat_map (fun entry : string * list string * list string =>
              let '(root, dirs, files) := entry in
              map (os_path_join root)
                  (List.filter (fun f => PyStr.endswith f ".json") files))
           entries.

(** The line printed for a file that is collected or skipped. *)
Definition load_line (h : host) (filepath : string) : string :=
  match json_load h filepath with
  | Loaded _ => "Valid JSON found: " +:+ filepath
  | LoadRaises _ msg => "Invalid JSON: " +:+ filepath +:+ " - " +:+ msg
  end.

(** The artifact a file contributes. *)
Definition load_artifacts (h : host) (filepath : string) : list dict :=
  match json_load h filepath with
  | Loaded (JObj data) => [dict_update [("filepath", JStr filepath)] data]
  | _ => []
  end.

(** The file decodes to an object, or fails in a way the program catches. *)
Definition benign (h : host) (filepath : string) : Prop :=
  (exists data, json_load h filepath = Loaded (JObj data))
  \/ (exists e msg, json_load h filepath = LoadRaises e msg /\ caught e = true).

(** The body of [collect_file] once the path is known. *)
Definition collect_path (h : host) (filepath : string)
    (build_artifacts : list dict) : M (list dict) :=
  match json_load h filepath with
  | Loaded (JObj data) =>
      print ("Valid JSON found: " +:+ filepath) ;;
      ret (build_artifacts
           ++ [dict_update [("filepath", JStr filepath)] data])
  | Loaded _ => raise TypeError
  | LoadRaises e msg =>
      if caught e
      then print ("Invalid JSON: " +:+ filepath +:+ " - " +:+ msg) ;;
           ret build_artifacts
      else raise e
  end.

(** The environment variables the program reads. *)
Definition consumed : list string :=
  [ "KANIKO_ARTIFACTS_DIR"; "CI_COMMIT_REF_PROTECTED"; "CI_COMMIT_TAG";
    "CI_PROJECT_ID"; "CI_COMMIT_SHORT_SHA"; "CI_COMMIT_REF_SLUG"; "TAGS" ].

(** Two environments give the same value to every variable that is read. *)
Definition environ_agree (e1 e2 : gmap string string) : Prop :=
  forall key, In key consumed -> e1 !! key = e2 !! key.

(** Two hosts show the same traversal of [top], the same content for each
    of its [.json] files, and answer alike when a file is opened for writing
    or a value is formatted. *)
Definition host_agree (top : string) (h1 h2 : host) : Prop :=
  os_walk h1 top = os_walk h2 top
  /\ (forall p, In p (json_paths (os_walk h1 top)) ->
        json_load h1 p = json_load h2 p)
  /\ (forall name, open_w h1 name = open_w h2 name)
  /\ (forall v, py_str h1 v = py_str h2 v).

(** The computation has the same effect from every state. *)
Definition oblivious {A : Type} (c : M A) : Prop :=
  exists lines writes r, performs c lines writes r.

(** The keys in the order in which they are first met, [seen] being the keys
    met before. *)
Fixpoint first_seen (seen keys : list json) : list json :=
  match keys with
  | [] => []
  | k :: keys' =>
      if existsb (fun s => key_eqb s k) seen then first_seen seen keys'
      else k :: first_seen (seen ++ [k]) keys'
  end.

(** The computation has the same effect from every state and writes only
    files whose name satisfies [P]. *)
Definition writes_within (P : string -> Prop) {A : Type} (c : M A) : Prop :=
  exists lines writes r,
    performs c lines writes r /\ Forall (fun w => P (fst w)) writes.

(** ** Sample inputs *)

Definition environ_tag_comma : gmap string string :=
  {[ "CI_COMMIT_TAG" := "v1,beta" ]}.

Definition environ_tag_v2 : gmap string string :=
  {[ "CI_COMMIT_TAG" := "v2.0" ; "CI_COMMIT_REF_SLUG" := "main" ]}.

Definition environ_sha : gmap string string :=
  {[ "CI_COMMIT_SHORT_SHA" := "abc123" ]}.

(** The same variables as [environ_sha] and one the program does not read. *)
Definition environ_sha_home : gmap string string :=
  <[ "HOME" := "/root" ]> environ_sha.

Definition empty_state : state := State [] ∅.

(** [str()] of the constants; the samples format no other value. *)
Definition sample_str (v : json) : string :=
  match v with
  | JNull => "None"
  | JBool true => "True"
  | JBool false => "False"
  | _ => "?"
  end.

(** The files of a sample host; any other path cannot be opened. *)
Fixpoint sample_load (files : list (string * load_result)) (p : string)
  : load_result :=
  match files with
  | [] => LoadRaises OSError "[Errno 2] No such file or directory"
  | (q, r) :: files' => if String.eqb q p then r else sample_load files' p
  end.

(** A host with one directory tree, where every file can be written. *)
Definition sample_host (entries : list (string * list string * list string))
    (files : list (string * load_result)) : host :=
  Host (fun _ => entries) (sample_load files) (fun _ => None) sample_str.

Definition artifact_empty_dirname : dict :=
  [ ("filepath", JStr "artifacts/kaniko-build/a.json");
    ("dockerfiledirname", JStr EmptyString);
    ("arch", JStr "amd64") ].

Definition host_empty_dirname : host :=
  sample_host
    [ ("artifacts/kaniko-build", [], ["a.json"]) ]
    [ ("artifacts/kaniko-build/a.json",
       Loaded (JObj [ ("dockerfiledirname", JStr EmptyString);
                      ("arch", JStr "amd64") ])) ].

Definition sample_artifacts : list dict :=
  [ [ ("filepath", JStr "a.json"); ("dockerfiledirname", JStr "app");
      ("arch", JStr "amd64") ];
    [ ("filepath", JStr "b.json"); ("arch", JStr "arm64") ];
    [ ("filepath", JStr "c.json"); ("dockerfiledirname", JStr "app");
      ("arch", JStr "arm64") ] ].

Definition host_invalid : host :=
  sample_host
    [ ("artifacts/kaniko-build", [], ["a.json"; "notes.txt"; "b.json"]) ]
    [ ("artifacts/kaniko-build/a.json",
       LoadRaises JSONDecodeError "Expecting value: line 1 column 1 (char 0)");
      ("artifacts/kaniko-build/b.json",
       LoadRaises OSError "[Errno 13] Permission denied") ].

Definition host_array : host :=
  sample_host
    [ ("artifacts/kaniko-build", [], ["a.json"; "b.json"; "c.json"]) ]
    [ ("artifacts/kaniko-build/a.json",
       Loaded (JObj [ ("dockerfiledirname", JStr "app");
                      ("arch", JStr "amd64") ]));
      ("artifacts/kaniko-build/b.json", Loaded (JArr [JNum 1; JNum 2]));
      ("artifacts/kaniko-build/c.json",
       Loaded (JObj [ ("dockerfiledirname", JStr "app");
                      ("arch", JStr "arm64") ])) ].

Definition host_two_arch : host :=
  sample_host
    [ ("artifacts/kaniko-build", ["arm"], ["a.json"]);
      ("artifacts/kaniko-build/arm", [], ["b.json"]) ]
    [ ("artifacts/kaniko-build/a.json",
       Loaded (JObj [ ("dockerfiledirname", JStr "app");
                      ("arch", JStr "amd64"); ("platform", JStr "linux") ]));
      ("artifacts/kaniko-build/arm/b.json",
       Loaded (JObj [ ("dockerfiledirname", JStr "app");
                      ("arch", JStr "arm64") ])) ].

(** The same tree as [host_two_arch] and a file outside of it. *)
Definition host_two_arch_more : host :=
  sample_host
    [ ("artifacts/kaniko-build", ["arm"], ["a.json"]);
      ("artifacts/kaniko-build/arm", [], ["b.json"]) ]
    [ ("artifacts/kaniko-build/a.json",
       Loaded (JObj [ ("dockerfiledirname", JStr "app");
                      ("arch", JStr "amd64"); ("platform", JStr "linux") ]));
      ("artifacts/kaniko-build/arm/b.json",
       Loaded (JObj [ ("dockerfiledirname", JStr "app");
                      ("arch", JStr "arm64") ]));
      ("elsewhere/x.json", Loaded JNull) ].

Definition artifact_s390x : dict :=
  [ ("filepath", JStr "artifacts/kaniko-build/z.json");
    ("dockerfiledirname", JStr "app");
    ("arch", JStr "s390x") ].

(** A host where one file is not valid UTF-8. *)
Definition host_undecodable : host :=
  sample_host
    [ ("artifacts/kaniko-build", [], ["a.json"; "b.json"]) ]
    [ ("artifacts/kaniko-build/a.json",
       Loaded (JObj [ ("dockerfiledirname", JStr "app");
                      ("arch", JStr "amd64") ]));
      ("artifacts/kaniko-build/b.json",
       LoadRaises UnicodeDecodeError
         "'utf-8' codec can't decode byte 0xff in position 0") ].

(** A host where the dockerfiledirname of an artifact is a list. *)
Definition host_list_key : host :=
  sample_host
    [ ("artifacts/kaniko-build", [], ["a.json"]) ]
    [ ("artifacts/kaniko-build/a.json",
       Loaded (JObj [ ("dockerfiledirname", JArr [JStr "app"]);
                      ("arch", JStr "amd64") ])) ].


(** A host where manifest_b.yaml cannot be opened. *)
Definition host_locked : host :=
  Host (fun _ => []) (sample_load [])
       (fun name =>
          if String.eqb name "manifest_b.yaml" then Some OSError else None)
       sample_str.

(** ** Strings *)

Section StringFacts.

Lemma append_nil (b : string) : EmptyString +:+ b = b.
Proof. reflexivity. Qed.

Lemma append_cons (x : ascii) (a b : string) :
  String x a +:+ b = String x (a +:+ b).
Proof. reflexivity. Qed.

Lemma append_assoc (a b c : string) : (a +:+ b) +:+ c = a +:+ (b +:+ c).
Proof.
  induction a as [|x a IH]; [reflexivity|].
  now rewrite !append_cons, IH.
Qed.

Lemma append_empty_r (a : string) : a +:+ EmptyString = a.
Proof.
  induction a as [|x a IH]; [reflexivity|].
  now rewrite append_cons, IH.
Qed.

Lemma split_nonempty (sep : ascii) (s : string) : PyStr.split sep s <> [].
Proof.
  destruct s as [|c s]; simpl; [discriminate|].
  destruct (Ascii.eqb c sep); [discriminate|].
  destruct (PyStr.split sep s); discriminate.
Qed.

(** Splitting distributes over joining with the separator. *)
Lemma split_join (sep : ascii) (a b : string) :
  PyStr.split sep (a +:+ String sep b) = PyStr.split sep a ++ PyStr.split sep b.
Proof.
  induction a as [|c a IH]; [rewrite append_nil | rewrite append_cons]; simpl.
  - now rewrite Ascii.eqb_refl.
  - destruct (Ascii.eqb c sep); rewrite IH; [reflexivity|].
    pose proof (split_nonempty sep a) as Hne.
    destruct (PyStr.split sep a); [contradiction | reflexivity].
Qed.

(** A string without the separator is one piece. *)
Lemma split_no_sep (sep : ascii) (s : string) :
  ~ In sep (list_ascii_of_string s) -> PyStr.split sep s = [s].
Proof.
  induction s as [|c s IH]; simpl; intros Hin; [reflexivity|].
  destruct (Ascii.eqb_spec c sep) as [->|Hne]; [tauto|].
  rewrite IH; [reflexivity | tauto].
Qed.

Lemma map_filter_comm {A B : Type} (f : A -> B) (p : B -> bool) (l : list A) :
  map f (List.filter (fun x => p (f x)) l) = List.filter p (map f l).
Proof.
  induction l as [|x l IH]; simpl; [reflexivity|].
  destruct (p (f x)); simpl; now rewrite IH.
Qed.

Lemma spec_tags_join (a b : string) :
  spec_tags (a +:+ "," +:+ b) = spec_tags a ++ spec_tags b.
Proof.
  unfold spec_tags. change ("," +:+ b) with (String "," b).
  now rewrite split_join, map_app, List.filter_app.
Qed.

Lemma spec_tags_empty : spec_tags EmptyString = [].
Proof. reflexivity. Qed.

Lemma truthy_true (s : string) : PyStr.truthy s = true <-> s <> EmptyString.
Proof. destruct s; simpl; split; congruence. Qed.

Lemma truthy_false (s : string) : PyStr.truthy s = false <-> s = EmptyString.
Proof. destruct s; simpl; split; congruence. Qed.

Lemma strip_empty : PyStr.strip EmptyString = EmptyString.
Proof. reflexivity. Qed.

Example split_commas :
  PyStr.split "," "a,b,,c" = ["a"; "b"; EmptyString; "c"]
  /\ PyStr.split "," EmptyString = [EmptyString].
Proof. split; reflexivity. Qed.

Example strip_spaces :
  PyStr.strip "  a b  " = "a b" /\ PyStr.strip "   " = EmptyString.
Proof. split; reflexivity. Qed.

Example replace_overlap :
  PyStr.replace "aaa" "aa" "b" = "ba"
  /\ PyStr.replace "abc" EmptyString "-" = "-a-b-c-"
  /\ PyStr.count "a/b/c" "/" = 2.
Proof. repeat split; reflexivity. Qed.

Example join_and_basename :
  os_path_join "a" "b.json" = "a/b.json"
  /\ os_path_join "a/" "b.json" = "a/b.json"
  /\ os_path_basename "a/b/c" = "c"
  /\ PyStr.endswith "x.json" ".json" = true
  /\ PyStr.endswith "json" ".json" = false.
Proof. repeat split; reflexivity. Qed.

End StringFacts.

(** ** The CI context resolver *)

Lemma environ_get_Some (environ : gmap string string) key dflt v :
  environ !! key = Some v -> environ_get environ key dflt = v.
Proof. unfold environ_get. now intros ->. Qed.

Lemma environ_get_None (environ : gmap string string) key dflt :
  environ !! key = None -> environ_get environ key dflt = dflt.
Proof. unfold environ_get. now intros ->. Qed.

(** C3: the channel is "release" exactly when CI_COMMIT_REF_PROTECTED is the
    string "true" or CI_COMMIT_TAG is set to a non-empty string, and it is
    "prerelease" in every other case. *)
Theorem TARGET_PROJECT_release_iff (environ : gmap string string) :
  let protected := environ !! "CI_COMMIT_REF_PROTECTED" = Some "true" in
  let tagged :=
    exists tag, environ !! "CI_COMMIT_TAG" = Some tag /\ tag <> EmptyString in
  (TARGET_PROJECT environ = "release" <-> protected \/ tagged)
  /\ (TARGET_PROJECT environ = "prerelease" <-> ~ (protected \/ tagged)).
Proof.
  intros protected tagged.
  assert (Hp : String.eqb (CI_COMMIT_REF_PROTECTED environ) "true" = true
               <-> protected).
  { unfold protected, CI_COMMIT_REF_PROTECTED, environ_get.
    rewrite String.eqb_eq.
    destruct (environ !! "CI_COMMIT_REF_PROTECTED") as [v|]; simpl;
      split; congruence. }
  assert (Ht : PyStr.truthy (CI_COMMIT_TAG environ) = true <-> tagged).
  { unfold tagged, CI_COMMIT_TAG, environ_get. rewrite truthy_true.
    destruct (environ !! "CI_COMMIT_TAG") as [v|]; simpl; split.
    - intros Hv. now exists v.
    - intros (t & [= <-] & Ht). exact Ht.
    - congruence.
    - intros (t & Habs & _). discriminate. }
  unfold TARGET_PROJECT.
  destruct (String.eqb (CI_COMMIT_REF_PROTECTED environ) "true") eqn:Ep;
    destruct (PyStr.truthy (CI_COMMIT_TAG environ)) eqn:Et; simpl;
    (split; split; intros H; try discriminate; try reflexivity; try tauto).
  - destruct H as [Hq|Hq]; [apply Hp in Hq | apply Ht in Hq]; discriminate.
  - intros [Hq|Hq]; [apply Hp in Hq | apply Ht in Hq]; discriminate.
Qed.

Lemma last_strip_piece (xs ys : list string) (tag : string) :
  ~ In ","%char (list_ascii_of_string tag) ->
  PyStr.strip tag <> EmptyString ->
  last (xs ++ ys ++ spec_tags tag) = Some (PyStr.strip tag).
Proof.
  intros Hcomma Hne. unfold spec_tags.
  rewrite (split_no_sep _ _ Hcomma). simpl.
  apply truthy_true in Hne. rewrite Hne.
  now rewrite !app_assoc, last_snoc.
Qed.

Lemma tags_list_spec_tags (environ : gmap string string) :
  tags_list environ = spec_tags (TAGS environ).
Proof. unfold tags_list, spec_tags. apply map_filter_comm. Qed.

Lemma TAGS_pieces (environ : gmap string string) :
  spec_tags (TAGS environ)
  = spec_tags (environ_get environ "TAGS" (CI_COMMIT_SHORT_SHA environ))
      ++ spec_tags (CI_COMMIT_REF_SLUG environ)
      ++ spec_tags (CI_COMMIT_TAG environ).
Proof.
  unfold TAGS.
  destruct (PyStr.truthy (CI_COMMIT_TAG environ)) eqn:Et;
    destruct (PyStr.truthy (CI_COMMIT_REF_SLUG environ)) eqn:Es;
    try (apply truthy_false in Et; rewrite Et);
    try (apply truthy_false in Es; rewrite Es);
    rewrite ?spec_tags_join, ?spec_tags_empty, ?app_nil_r, <- ?app_assoc;
    reflexivity.
Qed.

(** C2 (amended): the tag list holds the tags of TAGS (default: the short
    SHA), then those of the ref slug, then those of the commit tag, where the
    tags of a string are its comma-separated pieces, trimmed, without the
    empty ones, in order and with duplicates; and when CI_COMMIT_TAG has no
    comma and is not all whitespace, its trimmed value is the last element
    of the list. *)
Theorem tags_list_resolved (environ : gmap string string) :
  tags_list environ
  = spec_tags (default (default "0000000" (environ !! "CI_COMMIT_SHORT_SHA"))
                       (environ !! "TAGS"))
      ++ spec_tags (default EmptyString (environ !! "CI_COMMIT_REF_SLUG"))
      ++ spec_tags (default EmptyString (environ !! "CI_COMMIT_TAG"))
  /\ forall tag,
       environ !! "CI_COMMIT_TAG" = Some tag ->
       ~ In ","%char (list_ascii_of_string tag) ->
       PyStr.strip tag <> EmptyString ->
       last (tags_list environ) = Some (PyStr.strip tag).
Proof.
  split.
  - rewrite tags_list_spec_tags. apply TAGS_pieces.
  - intros tag Htag Hcomma Hne.
    rewrite tags_list_spec_tags, TAGS_pieces.
    unfold CI_COMMIT_TAG at 1. rewrite (environ_get_Some _ _ _ _ Htag).
    now apply last_strip_piece.
Qed.

(** C2 as stated fails: with CI_COMMIT_TAG set to [v1,beta] the list ends
    with [beta], and the value of CI_COMMIT_TAG is not in it. *)
Lemma tags_list_last_counterexample :
  CI_COMMIT_TAG environ_tag_comma = "v1,beta"
  /\ tags_list environ_tag_comma = ["0000000"; "v1"; "beta"]
  /\ last (tags_list environ_tag_comma)
     <> Some (CI_COMMIT_TAG environ_tag_comma)
  /\ ~ In (CI_COMMIT_TAG environ_tag_comma) (tags_list environ_tag_comma).
Proof.
  assert (Ht : CI_COMMIT_TAG environ_tag_comma = "v1,beta") by reflexivity.
  assert (Hl : tags_list environ_tag_comma = ["0000000"; "v1"; "beta"])
    by reflexivity.
  rewrite Hl, Ht.
  split; [reflexivity | split; [reflexivity | split]].
  - discriminate.
  - simpl. intros [H|[H|[H|[]]]]; discriminate.
Qed.

Lemma tags_list_resolved_witness :
  environ_tag_v2 !! "CI_COMMIT_TAG" = Some "v2.0"
  /\ ~ In ","%char (list_ascii_of_string "v2.0")
  /\ PyStr.strip "v2.0" <> EmptyString
  /\ last (tags_list environ_tag_v2) = Some (PyStr.strip "v2.0").
Proof.
  assert (H1 : environ_tag_v2 !! "CI_COMMIT_TAG" = Some "v2.0")
    by reflexivity.
  assert (H2 : ~ In ","%char (list_ascii_of_string "v2.0")).
  { simpl. intros [H|[H|[H|[H|[]]]]]; discriminate. }
  assert (H3 : PyStr.strip "v2.0" <> EmptyString) by (vm_compute; discriminate).
  split; [exact H1 | split; [exact H2 | split; [exact H3 |]]].
  exact (proj2 (tags_list_resolved environ_tag_v2) "v2.0" H1 H2 H3).
Defined.

(** ** The grouper *)

Section Keys.

Lemma key_eqb_refl (a : json) : hashable a = true -> key_eqb a a = true.
Proof.
  destruct a; simpl; try discriminate; intros _.
  - reflexivity.
  - now destruct b.
  - apply Z.eqb_refl.
  - apply String.eqb_refl.
Qed.

Lemma key_eqb_sym (a b : json) : key_eqb a b = key_eqb b a.
Proof.
  destruct a, b; simpl; try reflexivity.
  - now destruct b, b0.
  - apply Z.eqb_sym.
  - apply String.eqb_sym.
Qed.

Lemma key_eqb_trans (a b c : json) :
  key_eqb a b = true -> key_eqb b c = true -> key_eqb a c = true.
Proof.
  destruct a, b; simpl; try discriminate; destruct c; simpl;
    try discriminate; try reflexivity;
    rewrite ?Z.eqb_eq, ?String.eqb_eq, ?Bool.eqb_true_iff;
    intros; subst; try reflexivity; try congruence;
    repeat match goal with x : bool |- _ => destruct x end;
    first [reflexivity | discriminate | lia].
Qed.

Lemma key_eqb_hashable (a b : json) :
  key_eqb a b = true -> hashable a = true /\ hashable b = true.
Proof. destruct a, b; simpl; try discriminate; auto. Qed.

Lemma key_eqb_str (k : json) (s : string) :
  key_eqb k (JStr s) = true -> k = JStr s.
Proof.
  destruct k; simpl; try discriminate.
  rewrite String.eqb_eq. now intros ->.
Qed.

(** Two keys that are equal select the same keys. *)
Lemma key_eqb_congr (a b c : json) :
  key_eqb a b = true -> key_eqb c a = key_eqb c b.
Proof.
  intros Hab.
  destruct (key_eqb c a) eqn:Hca.
  - symmetry. now apply key_eqb_trans with a.
  - destruct (key_eqb c b) eqn:Hcb; [|reflexivity].
    rewrite key_eqb_sym in Hab.
    now rewrite (key_eqb_trans c b a Hcb Hab) in Hca.
Qed.

End Keys.

Section Grouping.

Lemma group_members_append (k d : json) (a : dict) groups :
  hashable d = true ->
  group_members k (group_append d a groups)
  = if key_eqb d k then group_members k groups ++ [a]
    else group_members k groups.
Proof.
  intros Hd. unfold group_members.
  induction groups as [|[k0 arts] gs IH]; simpl.
  - destruct (key_eqb d k); reflexivity.
  - destruct (key_eqb k0 d) eqn:E0; simpl.
    + rewrite (key_eqb_sym d k), <- (key_eqb_congr k0 d k E0).
      rewrite (key_eqb_sym k k0).
      destruct (key_eqb k0 k) eqn:E1; reflexivity.
    + destruct (key_eqb k0 k) eqn:E1; [|exact IH].
      destruct (key_eqb d k) eqn:E2; [|reflexivity].
      rewrite (key_eqb_sym d k) in E2.
      rewrite (key_eqb_trans k0 k d E1 E2) in E0. discriminate.
Qed.

Lemma group_all_members (k : json) (arts : list dict) groups :
  Forall (fun a => hashable (dirname_of a) = true) arts ->
  group_members k (group_all arts groups)
  = group_members k groups
      ++ List.filter (fun a => key_eqb k (dirname_of a)) arts.
Proof.
  intros Hh. revert groups.
  induction Hh as [|a arts Ha _ IH]; intros groups; simpl.
  - now rewrite app_nil_r.
  - unfold group_all in *. simpl. rewrite IH, group_members_append by exact Ha.
    rewrite (key_eqb_sym k).
    destruct (key_eqb (dirname_of a) k); [|reflexivity].
    now rewrite <- app_assoc.
Qed.

Lemma group_append_keys (P : json -> Prop) (d : json) (a : dict) groups :
  Forall (fun g => P (fst g)) groups -> P d ->
  Forall (fun g => P (fst g)) (group_append d a groups).
Proof.
  intros Hg Hd. induction Hg as [|[k0 arts] gs Hk Hgs IH]; simpl.
  - constructor; [exact Hd | constructor].
  - destruct (key_eqb k0 d); constructor; assumption.
Qed.

Lemma group_append_distinct (d : json) (a : dict) groups :
  hashable d = true -> distinct_keys groups ->
  distinct_keys (group_append d a groups).
Proof.
  intros Hd. induction groups as [|[k0 arts] gs IH]; simpl.
  - intros _. repeat split; [exact Hd | constructor].
  - intros (Hk0 & Hall & Hgs).
    destruct (key_eqb k0 d) eqn:E0; simpl.
    + repeat split; assumption.
    + repeat split; [exact Hk0 | | now apply IH].
      now apply (group_append_keys (fun k => key_eqb k0 k = false)).
Qed.

Lemma group_all_distinct (arts : list dict) groups :
  Forall (fun a => hashable (dirname_of a) = true) arts ->
  distinct_keys groups -> distinct_keys (group_all arts groups).
Proof.
  intros Hh. revert groups.
  induction Hh as [|a arts Ha _ IH]; intros groups Hg; [exact Hg|].
  apply IH. now apply group_append_distinct.
Qed.

Lemma distinct_keys_members (k : json) (members : list dict) groups :
  distinct_keys groups -> In (k, members) groups ->
  group_members k groups = members.
Proof.
  unfold group_members.
  induction groups as [|[k0 arts] gs IH]; simpl; [tauto|].
  intros (Hk0 & Hall & Hgs) [Heq|Hin].
  - injection Heq as -> ->. now rewrite key_eqb_refl.
  - rewrite List.Forall_forall in Hall. specialize (Hall _ Hin). simpl in Hall.
    rewrite Hall. now apply IH.
Qed.

Lemma distinct_keys_unique (g1 g2 : json * list dict) groups :
  distinct_keys groups -> In g1 groups -> In g2 groups ->
  key_eqb (fst g1) (fst g2) = true -> g1 = g2.
Proof.
  induction groups as [|g gs IH]; simpl; [tauto|].
  intros (Hk & Hall & Hgs) [H1|H1] [H2|H2] Heq; subst.
  - reflexivity.
  - rewrite List.Forall_forall in Hall. rewrite (Hall _ H2) in Heq. discriminate.
  - rewrite List.Forall_forall in Hall. rewrite key_eqb_sym, (Hall _ H1) in Heq.
    discriminate.
  - now apply IH.
Qed.

(** The loop of lines 72-75 leaves the state alone and returns the fold when
    every key is hashable. *)
Lemma grouped_by_dir_returns (arts : list dict) (st : state) :
  Forall (fun a => hashable (dirname_of a) = true) arts ->
  grouped_by_dir arts st = (st, Returns (group_all arts [])).
Proof.
  unfold grouped_by_dir, group_all. generalize (@nil (json * list dict)).
  intros groups Hh. revert groups.
  induction Hh as [|a arts Ha _ IH]; intros groups; simpl; [reflexivity|].
  unfold bind at 1. rewrite Ha. unfold ret at 1. apply IH.
Qed.

End Grouping.

(** C1 (amended): when every key can be hashed the grouper returns, every
    artifact is a member of the one group whose key equals the value of its
    dockerfiledirname field, the key is "unknown_directory" when the field
    is missing, and a field that is a string, the empty one included, is the
    key itself; a group holds exactly the artifacts with its key, in
    collection order. *)
Theorem grouped_by_dir_partition (build_artifacts : list dict) (st : state) :
  Forall (fun a => hashable (dirname_of a) = true) build_artifacts ->
  exists groups,
    grouped_by_dir build_artifacts st = (st, Returns groups)
    /\ (forall a, In a build_artifacts ->
          exists k members,
            In (k, members) groups /\ In a members
            /\ key_eqb k (dirname_of a) = true
            /\ (dict_lookup "dockerfiledirname" a = None ->
                k = JStr "unknown_directory")
            /\ (forall s, dict_lookup "dockerfiledirname" a = Some (JStr s) ->
                k = JStr s))
    /\ (forall k members, In (k, members) groups ->
          members
          = List.filter (fun a => key_eqb k (dirname_of a)) build_artifacts)
    /\ (forall g1 g2, In g1 groups -> In g2 groups ->
          key_eqb (fst g1) (fst g2) = true -> g1 = g2).
Proof.
  intros Hh. exists (group_all build_artifacts []).
  assert (Hd : distinct_keys (group_all build_artifacts []))
    by (now apply group_all_distinct).
  split; [now apply grouped_by_dir_returns|].
  split; [|split].
  - intros a Ha.
    pose proof (group_all_members (dirname_of a) build_artifacts [] Hh) as Hm.
    assert (Hin : In a (group_members (dirname_of a)
                          (group_all build_artifacts []))).
    { rewrite Hm. simpl. apply List.filter_In. split; [exact Ha|].
      apply key_eqb_refl. rewrite List.Forall_forall in Hh. now apply Hh. }
    unfold group_members in Hin.
    destruct (List.find _ _) as [[k members]|] eqn:Ef; [|destruct Hin].
    apply List.find_some in Ef as [Hg Hk]. simpl in Hk, Hin.
    exists k, members. repeat split; try assumption.
    + intros Hnone. apply key_eqb_str.
      unfold dirname_of, dict_get in Hk. now rewrite Hnone in Hk.
    + intros s Hs. apply key_eqb_str.
      unfold dirname_of, dict_get in Hk. now rewrite Hs in Hk.
  - intros k members Hin.
    rewrite <- (distinct_keys_members k members _ Hd Hin).
    now rewrite group_all_members.
  - intros g1 g2. now apply distinct_keys_unique.
Qed.

(** ** The manifest document *)

Section Document.

Lemma concat_empty_cons (x : string) (l : list string) :
  String.concat EmptyString (x :: l) = x +:+ String.concat EmptyString l.
Proof.
  destruct l as [|y l]; simpl; [now rewrite append_empty_r | reflexivity].
Qed.

Lemma concat_empty_app (l1 l2 : list string) :
  String.concat EmptyString (l1 ++ l2)
  = String.concat EmptyString l1 +:+ String.concat EmptyString l2.
Proof.
  induction l1 as [|x l1 IH]; [reflexivity|].
  rewrite <- app_comm_cons, !concat_empty_cons, IH. now rewrite append_assoc.
Qed.

Lemma eq_str_is_arch (arch : string) (a : dict) :
  eq_str (dict_lookup "arch" a) arch = true <-> is_arch arch a.
Proof.
  unfold is_arch, eq_str.
  destruct (dict_lookup "arch" a) as [[]|]; split; try discriminate.
  - rewrite String.eqb_eq. now intros ->.
  - intros [= ->]. apply String.eqb_refl.
Qed.

Lemma manifest_text_blocks (h : host) (environ : gmap string string)
    (dirname : string) (artifacts : list dict) :
  manifest_text h environ dirname artifacts
  = manifest_head environ dirname
      +:+ written_block h environ dirname "amd64" artifacts
      +:+ written_block h environ dirname "arm64" artifacts.
Proof.
  unfold manifest_text, manifest_head, written_block, manifest_entry, image_ref.
  rewrite !concat_empty_app.
  destruct (has_arch "amd64" artifacts), (has_arch "arm64" artifacts);
    rewrite ?concat_empty_cons; simpl String.concat;
    rewrite ?append_assoc, ?append_empty_r, ?append_nil; reflexivity.
Qed.

Lemma written_block_first (h : host) (environ : gmap string string)
    (dirname arch : string) (artifacts : list dict) :
  arch_block h environ dirname arch artifacts
             (written_block h environ dirname arch artifacts).
Proof.
  unfold written_block, has_arch, arch_artifact, arch_block.
  induction artifacts as [|a arts IH]; simpl.
  - left. split; [constructor | reflexivity].
  - destruct (eq_str (dict_lookup "arch" a) arch) eqn:Ea; simpl.
    + right. exists [], a, arts. repeat split; [constructor|].
      now apply eq_str_is_arch.
    + assert (Hna : ~ is_arch arch a).
      { intros Ha. apply eq_str_is_arch in Ha. congruence. }
      destruct IH as [[Hall Hb]|(pre & a' & post & Heq & Hpre & Ha' & Hb)].
      * left. split; [now constructor | exact Hb].
      * right. exists (a :: pre), a', post.
        split; [now rewrite Heq|].
        split; [now constructor|].
        split; [exact Ha' | exact Hb].
Qed.

Lemma written_block_absent (h : host) (environ : gmap string string)
    (dirname arch : string) (artifacts : list dict) :
  Forall (fun a => ~ is_arch arch a) artifacts ->
  written_block h environ dirname arch artifacts = EmptyString.
Proof.
  intros Hall. unfold written_block.
  assert (Hno : has_arch arch artifacts = false).
  { unfold has_arch.
    induction Hall as [|a arts Ha _ IH]; simpl; [reflexivity|].
    destruct (eq_str (dict_lookup "arch" a) arch) eqn:Ea; [|exact IH].
    apply eq_str_is_arch in Ea. contradiction. }
  now rewrite Hno.
Qed.

End Document.

(** C4: the document of a group is its head, then the amd64 block, then the
    arm64 block, whatever the order of the artifacts; the block of an
    architecture is empty when no artifact of the group has it, and else is
    one entry whose os is the platform (default "linux") of the first
    artifact that has it. *)
Theorem manifest_text_amd64_before_arm64 (h : host)
    (environ : gmap string string) (dirname : string)
    (artifacts : list dict) :
  exists amd64 arm64,
    manifest_text h environ dirname artifacts
    = manifest_head environ dirname +:+ amd64 +:+ arm64
    /\ arch_block h environ dirname "amd64" artifacts amd64
    /\ arch_block h environ dirname "arm64" artifacts arm64.
Proof.
  exists (written_block h environ dirname "amd64" artifacts),
         (written_block h environ dirname "arm64" artifacts).
  split; [apply manifest_text_blocks|].
  split; apply written_block_first.
Qed.


(** ** Effects of the computations *)

Section Effects.

Lemma apply_writes_app (w1 w2 : list (string * string)) files :
  apply_writes (w1 ++ w2) files = apply_writes w2 (apply_writes w1 files).
Proof. unfold apply_writes. apply fold_left_app. Qed.

Lemma apply_writes_lookup (writes : list (string * string)) files name :
  apply_writes writes files !! name
  = match last_write name writes with
    | Some content => Some content
    | None => files !! name
    end.
Proof.
  revert files. induction writes as [|[n c] ws IH]; intros files; simpl;
    [reflexivity|].
  change (apply_writes ws (<[n := c]> files) !! name = 
          match
            match last_write name ws with
            | Some content => Some content
            | None => if String.eqb n name then Some c else None
            end
          with Some content => Some content | None => files !! name end).
  rewrite IH. destruct (last_write name ws); [reflexivity|].
  destruct (String.eqb_spec n name) as [->|Hne].
  - apply lookup_insert_eq.
  - now apply lookup_insert_ne.
Qed.

Lemma apply_writes_idem (writes : list (string * string)) files :
  apply_writes writes (apply_writes writes files) = apply_writes writes files.
Proof.
  apply map_eq. intros name. rewrite !apply_writes_lookup.
  now destruct (last_write name writes).
Qed.

Lemma state_eta (st : state) : State (stdout st) (cwd st) = st.
Proof. now destruct st. Qed.

Lemma performs_ret {A : Type} (a : A) : performs (ret a) [] [] (Returns a).
Proof. intros st. unfold ret. simpl. now rewrite app_nil_r, state_eta. Qed.

Lemma performs_raise {A : Type} (e : exn_class) :
  performs (@raise A e) [] [] (Raises e).
Proof. intros st. unfold raise. simpl. now rewrite app_nil_r, state_eta. Qed.

Lemma performs_print (line : string) :
  performs (print line) [line] [] (Returns tt).
Proof. intros st. reflexivity. Qed.

Lemma performs_open_write (h : host) (name content : string) :
  open_w h name = None ->
  performs (open_write h name content) [] [(name, content)] (Returns tt).
Proof.
  intros Ho st. unfold open_write. rewrite Ho. simpl. now rewrite app_nil_r.
Qed.

Lemma performs_open_fails (h : host) (name content : string) e :
  open_w h name = Some e ->
  performs (open_write h name content) [] [] (Raises e).
Proof.
  intros Ho st. unfold open_write. rewrite Ho. simpl.
  now rewrite app_nil_r, state_eta.
Qed.

Lemma performs_bind {A B : Type} (c : M A) (k : A -> M B) l1 w1 a l2 w2 r :
  performs c l1 w1 (Returns a) -> performs (k a) l2 w2 r ->
  performs (bind c k) (l1 ++ l2) (w1 ++ w2) r.
Proof.
  intros Hc Hk st. unfold bind. rewrite Hc, Hk. simpl.
  now rewrite app_assoc, apply_writes_app.
Qed.

Lemma performs_bind_raises {A B : Type} (c : M A) (k : A -> M B) l w e :
  performs c l w (Raises e) -> performs (bind c k) l w (Raises e).
Proof. intros Hc st. unfold bind. now rewrite Hc. Qed.

Lemma performs_ext {A : Type} (c c' : M A) l w r :
  (forall st, c st = c' st) -> performs c' l w r -> performs c l w r.
Proof. intros Heq Hc st. now rewrite Heq. Qed.

Lemma performs_eq {A : Type} (c : M A) l l' w w' r :
  performs c l w r -> l = l' -> w = w' -> performs c l' w' r.
Proof. now intros Hc <- <-. Qed.

Lemma for_each_app {A : Type} (xs ys : list A) (body : A -> M unit) st :
  for_each (xs ++ ys) body st
  = bind (for_each xs body) (fun _ => for_each ys body) st.
Proof.
  revert st. induction xs as [|x xs IH]; intros st; [reflexivity|].
  simpl. unfold bind.
  destruct (body x st) as [st' [[]|e]]; [now rewrite IH | reflexivity].
Qed.

Lemma for_fold_app {A B : Type} (xs ys : list A) (acc : B)
    (body : A -> B -> M B) st :
  for_fold (xs ++ ys) acc body st
  = bind (for_fold xs acc body) (fun acc' => for_fold ys acc' body) st.
Proof.
  revert acc st. induction xs as [|x xs IH]; intros acc st; [reflexivity|].
  simpl. unfold bind.
  destruct (body x acc st) as [st' [acc'|e]]; [now rewrite IH | reflexivity].
Qed.

(** A loop whose bodies all return. *)
Lemma performs_for_each {A : Type} (xs : list A) (body : A -> M unit)
    (lines : A -> list string) (writes : A -> list (string * string)) :
  Forall (fun x => performs (body x) (lines x) (writes x) (Returns tt)) xs ->
  performs (for_each xs body) (flat_map lines xs) (flat_map writes xs)
           (Returns tt).
Proof.
  induction 1 as [|x xs Hx _ IH]; simpl; [apply performs_ret|].
  eapply performs_bind; [exact Hx | exact IH].
Qed.

End Effects.

(** ** The manifest writer *)

Section Writer.

Lemma replace_char (o n : ascii) (s : string) :
  PyStr.replace s (String o EmptyString) (String n EmptyString)
  = str_map (fun c => if Ascii.eqb c o then n else c) s.
Proof.
  unfold PyStr.replace.
  induction s as [|c s IH]; [reflexivity|].
  cbn [PyStr.replace_scan String.prefix String.length Nat.sub str_map].
  destruct (ascii_dec o c) as [<-|Hne].
  - rewrite Ascii.eqb_refl.
    assert (Hp : String.prefix EmptyString s = true) by (now destruct s).
    rewrite Hp, append_cons, append_nil. now rewrite IH.
  - destruct (Ascii.eqb_spec c o) as [->|_]; [contradiction|].
    now rewrite IH.
Qed.

Lemma str_map_map (f g : ascii -> ascii) (s : string) :
  str_map g (str_map f s) = str_map (fun c => g (f c)) s.
Proof. induction s as [|c s IH]; simpl; [reflexivity | now rewrite IH]. Qed.

Lemma str_map_ext (f g : ascii -> ascii) (s : string) :
  (forall c, f c = g c) -> str_map f s = str_map g s.
Proof.
  intros Hfg. induction s as [|c s IH]; simpl; [reflexivity|].
  now rewrite Hfg, IH.
Qed.

Lemma safe_dirname_map (dirname : string) :
  safe_dirname dirname = str_map sanitize_char dirname.
Proof.
  unfold safe_dirname, backslash.
  change "/" with (String "/" EmptyString).
  change "_" with (String "_" EmptyString).
  rewrite !replace_char, str_map_map. apply str_map_ext.
  intros c. unfold sanitize_char.
  destruct (Ascii.eqb_spec c "/") as [->|Hs]; [reflexivity|].
  simpl. reflexivity.
Qed.

Lemma write_manifest_performs (h : host) (environ : gmap string string)
    (dirname : string) (artifacts : list dict) :
  open_w h (manifest_filename dirname) = None ->
  performs (write_manifest h environ (JStr dirname, artifacts))
    ["Generated " +:+ manifest_filename dirname +:+ " for " +:+ dirname]
    [(manifest_filename dirname,
      manifest_text h environ dirname artifacts)]
    (Returns tt).
Proof.
  intros Ho. unfold write_manifest.
  eapply performs_eq.
  - eapply performs_bind; [now apply performs_open_write|].
    apply performs_print.
  - reflexivity.
  - reflexivity.
Qed.

End Writer.

(** C10: for a group with a string key none of whose artifacts has the arch
    amd64 or arm64, and a file that can be opened, the writer stores the
    file manifest_<safe_name>.yaml with the image line, the tags and the
    manifests: header and nothing after it, and reports it. *)
Theorem write_manifest_no_arch (h : host) (environ : gmap string string)
    (dirname : string) (artifacts : list dict) (st : state) :
  Forall (fun a => ~ is_arch "amd64" a /\ ~ is_arch "arm64" a) artifacts ->
  open_w h (manifest_filename dirname) = None ->
  write_manifest h environ (JStr dirname, artifacts) st
  = (State (stdout st
              ++ ["Generated " +:+ manifest_filename dirname +:+ " for "
                    +:+ dirname])
           (<[manifest_filename dirname :=
                "image: " +:+ image_ref environ dirname +:+ nl
                  +:+ "tags:" +:+ nl
                  +:+ String.concat EmptyString
                        (map (fun t => "  - " +:+ dquote +:+ t +:+ dquote
                                         +:+ nl)
                             (tags_list environ))
                  +:+ "manifests:" +:+ nl]> (cwd st)),
     Returns tt).
Proof.
  intros Hno Ho.
  rewrite (write_manifest_performs h environ dirname artifacts Ho st).
  rewrite manifest_text_blocks.
  rewrite !written_block_absent, !append_empty_r; [reflexivity | |].
  - eapply Forall_impl; [exact Hno|]. simpl. tauto.
  - eapply Forall_impl; [exact Hno|]. simpl. tauto.
Qed.

Section WriterLoop.

Lemma writer_loop_performs (h : host) (environ : gmap string string)
    (groups : list (json * list dict)) :
  Forall (writable h) groups ->
  performs (for_each groups (write_manifest h environ))
           (flat_map group_lines groups)
           (flat_map (group_writes h environ) groups)
           (Returns tt).
Proof.
  intros Hw. apply performs_for_each.
  eapply Forall_impl; [exact Hw|].
  intros [k arts] (d & Hk & Ho). simpl in Hk. subst k.
  now apply write_manifest_performs.
Qed.

Lemma last_write_app (name : string) (w1 w2 : list (string * string)) :
  last_write name (w1 ++ w2)
  = match last_write name w2 with
    | Some content => Some content
    | None => last_write name w1
    end.
Proof.
  induction w1 as [|w w1 IH]; simpl.
  - now destruct (last_write name w2).
  - rewrite IH. now destruct (last_write name w2).
Qed.

Lemma last_write_absent (h : host) (environ : gmap string string)
    (groups : list (json * list dict)) (name : string) :
  Forall (fun g => forall d, fst g = JStr d -> manifest_filename d <> name)
         groups ->
  last_write name (flat_map (group_writes h environ) groups) = None.
Proof.
  induction 1 as [|[k arts] gs Hg _ IH]; [reflexivity|].
  cbn [flat_map]. rewrite last_write_app, IH.
  unfold group_writes. cbn [fst snd]. destruct k; try reflexivity.
  cbn [last_write fst snd]. specialize (Hg s eq_refl).
  destruct (String.eqb_spec (manifest_filename s) name); [contradiction|].
  reflexivity.
Qed.

End WriterLoop.

(** C8: the file name of a group is manifest_<safe_name>.yaml, where the safe
    name is the key with every slash and backslash replaced by an
    underscore; and when two groups of a writable run have the same file
    name, the write of the later one succeeds and the file, which held the
    document of the earlier group, ends with the document of the last such
    group. *)
Theorem manifest_filename_overwrite :
  (forall dirname,
     manifest_filename dirname
     = "manifest_" +:+ str_map sanitize_char dirname +:+ ".yaml")
  /\ forall (h : host) (environ : gmap string string)
       (before between after : list (json * list dict))
       (d1 d2 : string) (a1 a2 : list dict) (st : state),
       let groups :=
         before ++ (JStr d1, a1) :: between ++ (JStr d2, a2) :: after in
       Forall (writable h) groups ->
       manifest_filename d1 = manifest_filename d2 ->
       Forall (fun g => forall d, fst g = JStr d ->
                 manifest_filename d <> manifest_filename d2) after ->
       exists st1 st2,
         for_each (before ++ [(JStr d1, a1)]) (write_manifest h environ) st
         = (st1, Returns tt)
         /\ cwd st1 !! manifest_filename d1
            = Some (manifest_text h environ d1 a1)
         /\ for_each groups (write_manifest h environ) st = (st2, Returns tt)
         /\ cwd st2 !! manifest_filename d1
            = Some (manifest_text h environ d2 a2).
Proof.
  split.
  { intros dirname. unfold manifest_filename. now rewrite safe_dirname_map. }
  intros h environ before between after d1 d2 a1 a2 st groups Hw Hsame Hafter.
  assert (Hw1 : Forall (writable h) (before ++ [(JStr d1, a1)])).
  { unfold groups in Hw. apply Forall_app in Hw as [Hb Hr].
    apply Forall_app. split; [exact Hb|].
    constructor; [|constructor]. now inversion Hr. }
  pose proof (writer_loop_performs h environ _ Hw1 st) as E1.
  pose proof (writer_loop_performs h environ _ Hw st) as E2.
  eexists _, _. split; [exact E1|]. split; [|split; [exact E2|]].
  - cbn [cwd]. rewrite apply_writes_lookup, flat_map_app, last_write_app.
    cbn [flat_map group_writes fst snd last_write app].
    now rewrite String.eqb_refl.
  - cbn [cwd]. rewrite Hsame, apply_writes_lookup. unfold groups.
    rewrite flat_map_app, last_write_app. cbn [flat_map].
    rewrite last_write_app, flat_map_app, last_write_app. cbn [flat_map].
    rewrite last_write_app.
    rewrite (last_write_absent h environ after _ Hafter).
    cbn [group_writes fst snd last_write app].
    now rewrite String.eqb_refl.
Qed.

(** ** The collector *)

Section Collector.

Lemma flat_map_singleton {A B : Type} (f : A -> B) (l : list A) :
  flat_map (fun x => [f x]) l = map f l.
Proof. induction l as [|x l IH]; simpl; [reflexivity | now rewrite IH]. Qed.

Lemma flat_map_nil {A B : Type} (l : list A) :
  flat_map (fun _ : A => @nil B) l = [].
Proof. induction l as [|x l IH]; simpl; [reflexivity | exact IH]. Qed.

Lemma print_tree_performs (top : string)
    (entry : string * list string * list string) :
  performs (print_tree top entry) (tree_lines top entry) [] (Returns tt).
Proof.
  destruct entry as [[root dirs] files]. unfold print_tree, tree_lines.
  eapply performs_eq.
  - eapply performs_bind; [apply performs_print|].
    apply (performs_for_each files _
             (fun f => [PyStr.mul " "
                          (4 * (PyStr.count
                                  (PyStr.replace root top EmptyString)
                                  os_sep + 1)) +:+ f])
             (fun _ => [])).
    apply Forall_forall. intros f _. apply performs_print.
  - now rewrite flat_map_singleton.
  - now rewrite flat_map_nil.
Qed.

Lemma tree_performs (top : string)
    (entries : list (string * list string * list string)) :
  performs (for_each entries (print_tree top))
           (flat_map (tree_lines top) entries) [] (Returns tt).
Proof.
  eapply performs_eq.
  - apply (performs_for_each entries _ (tree_lines top) (fun _ => [])).
    apply Forall_forall. intros entry _. apply print_tree_performs.
  - reflexivity.
  - apply flat_map_nil.
Qed.

Lemma collect_files_paths (h : host) (root : string) (files : list string)
    (acc : list dict) (st : state) :
  for_fold files acc (collect_file h root) st
  = for_fold (map (os_path_join root)
                  (List.filter (fun f => PyStr.endswith f ".json") files))
             acc (collect_path h) st.
Proof.
  revert acc st. induction files as [|f files IH]; intros acc st;
    [reflexivity|].
  cbn [for_fold List.filter]. unfold collect_file at 1.
  destruct (PyStr.endswith f ".json"); cbn [negb map for_fold].
  - fold (collect_path h (os_path_join root f) acc). unfold bind.
    destruct (collect_path h (os_path_join root f) acc st) as [st' [acc'|e]];
      [apply IH | reflexivity].
  - unfold bind, ret. apply IH.
Qed.

Lemma collect_paths (h : host) (top : string) (st : state) :
  collect h top st
  = for_fold (json_paths (os_walk h top)) [] (collect_path h) st.
Proof.
  unfold collect. generalize (@nil dict) as acc. revert st.
  induction (os_walk h top) as [|[[root dirs] files] entries IH];
    intros st acc; [reflexivity|].
  cbn [for_fold json_paths flat_map]. rewrite for_fold_app. unfold bind.
  rewrite collect_files_paths.
  destruct (for_fold _ acc (collect_path h) st) as [st' [acc'|e]];
    [apply IH | reflexivity].
Qed.

Lemma collect_path_benign (h : host) (filepath : string) (acc : list dict) :
  benign h filepath ->
  performs (collect_path h filepath acc) [load_line h filepath] []
           (Returns (acc ++ load_artifacts h filepath)).
Proof.
  unfold collect_path, load_line, load_artifacts.
  intros [(data & ->)|(e & msg & -> & He)].
  - apply (performs_bind _ _ [_] [] tt [] []);
      [apply performs_print | apply performs_ret].
  - rewrite He, app_nil_r.
    apply (performs_bind _ _ [_] [] tt [] []);
      [apply performs_print | apply performs_ret].
Qed.

Lemma collect_benign (h : host) (paths : list string) (acc : list dict) :
  Forall (benign h) paths ->
  performs (for_fold paths acc (collect_path h))
           (map (load_line h) paths) []
           (Returns (acc ++ flat_map (load_artifacts h) paths)).
Proof.
  intros Hb. revert acc.
  induction Hb as [|p paths Hp _ IH]; intros acc; simpl.
  - rewrite app_nil_r. apply performs_ret.
  - rewrite app_assoc.
    eapply performs_eq;
      [eapply performs_bind; [now apply collect_path_benign | apply IH]
      | reflexivity | reflexivity].
Qed.

Lemma collect_path_not_object (h : host) (filepath : string) (v : json)
    (acc : list dict) :
  json_load h filepath = Loaded v ->
  (forall data, v <> JObj data) ->
  performs (collect_path h filepath acc) [] [] (Raises TypeError).
Proof.
  intros Hl Hv. unfold collect_path. rewrite Hl.
  destruct v; try apply performs_raise. now destruct (Hv fields).
Qed.

(** The first file that decodes to something else than an object. *)
Lemma first_not_object (h : host) (paths : list string) (p : string)
    (v : json) :
  In p paths ->
  json_load h p = Loaded v ->
  (forall data, v <> JObj data) ->
  (forall q e msg, In q paths -> json_load h q = LoadRaises e msg ->
     e = JSONDecodeError \/ e = OSError) ->
  exists pre q post w,
    paths = pre ++ q :: post
    /\ Forall (benign h) pre
    /\ json_load h q = Loaded w
    /\ (forall data, w <> JObj data).
Proof.
  intros Hin Hp Hv.
  induction paths as [|q paths IH]; intros Hcaught; [destruct Hin|].
  destruct (json_load h q) as [w|e msg] eqn:Hq.
  - destruct w as [| | | | |fields].
    6: { destruct Hin as [->|Hin]; [congruence|].
         destruct IH as (pre & q' & post & w & -> & Hpre & Hq' & Hw);
           [exact Hin | intros; eapply Hcaught; [right|]; eassumption |].
         exists (q :: pre), q', post, w.
         split; [reflexivity|]. split; [|now split].
         constructor; [|exact Hpre]. left. now exists fields. }
    all: exists [], q, paths; eexists; split; [reflexivity|];
      split; [constructor|]; split; [exact Hq | discriminate].
  - destruct Hin as [->|Hin]; [congruence|].
    destruct IH as (pre & q' & post & w & -> & Hpre & Hq' & Hw);
      [exact Hin | intros; eapply Hcaught; [right|]; eassumption |].
    exists (q :: pre), q', post, w.
    split; [reflexivity|]. split; [|now split].
    constructor; [|exact Hpre]. right. exists e, msg.
    split; [exact Hq|].
    destruct (Hcaught q e msg (or_introl eq_refl) Hq) as [->| ->];
      reflexivity.
Qed.

End Collector.


(** C9: when some .json file of the traversal decodes to a value that is
    not an object (an array, a string, a number, a boolean or null) and no
    file fails with an exception other than the two the program catches, the
    run ends with an uncaught TypeError at the first such file: the files
    before it are collected or skipped and logged, nothing is printed for
    it, no file after it is read and no manifest is written. *)
Theorem main_not_object_TypeError (h : host) (environ : gmap string string)
    (st : state) (p : string) (v : json) :
  let top := KANIKO_ARTIFACTS_DIR environ in
  In p (json_paths (os_walk h top)) ->
  json_load h p = Loaded v ->
  (forall data, v <> JObj data) ->
  (forall q e msg,
     In q (json_paths (os_walk h top)) ->
     json_load h q = LoadRaises e msg ->
     e = JSONDecodeError \/ e = OSError) ->
  exists pre q post,
    json_paths (os_walk h top) = pre ++ q :: post
    /\ Forall (benign h) pre
    /\ (exists w, json_load h q = Loaded w /\ forall data, w <> JObj data)
    /\ main h environ st
       = (State (stdout st
                   ++ ["Traversing directory: " +:+ top]
                   ++ flat_map (tree_lines top) (os_walk h top)
                   ++ map (load_line h) pre)
                (cwd st),
          Raises TypeError).
Proof.
  intros top Hin Hp Hv Hcaught.
  destruct (first_not_object h _ p v Hin Hp Hv Hcaught)
    as (pre & q & post & w & Hpaths & Hpre & Hq & Hw).
  exists pre, q, post.
  split; [exact Hpaths|]. split; [exact Hpre|].
  split; [exists w; now split|].
  assert (Hmain : performs (main h environ)
            (["Traversing directory: " +:+ top]
               ++ flat_map (tree_lines top) (os_walk h top)
               ++ map (load_line h) pre)
            [] (Raises TypeError)).
  { unfold main. fold top.
    apply (performs_bind _ _ [_] [] tt _ []); [apply performs_print|].
    apply (performs_bind _ _ _ [] tt _ []); [apply tree_performs|].
    apply performs_bind_raises.
    eapply performs_ext; [apply collect_paths|]. rewrite Hpaths.
    eapply performs_ext; [intros st0; apply for_fold_app|].
    eapply performs_eq.
    - eapply performs_bind; [now apply collect_benign|].
      cbn [for_fold]. apply performs_bind_raises.
      now apply collect_path_not_object with w.
    - apply app_nil_r.
    - reflexivity. }
  apply Hmain.
Qed.

(** ** Determinism *)

Section Determinism.

Lemma oblivious_ret {A : Type} (a : A) : oblivious (ret a).
Proof. eexists _, _, _. apply performs_ret. Qed.

Lemma oblivious_raise {A : Type} (e : exn_class) : oblivious (@raise A e).
Proof. eexists _, _, _. apply performs_raise. Qed.

Lemma oblivious_print (line : string) : oblivious (print line).
Proof. eexists _, _, _. apply performs_print. Qed.

Lemma oblivious_open_write (h : host) (name content : string) :
  oblivious (open_write h name content).
Proof.
  destruct (open_w h name) as [e|] eqn:Ho; eexists _, _, _.
  - eapply performs_open_fails. exact Ho.
  - eapply performs_open_write. exact Ho.
Qed.

Lemma oblivious_bind {A B : Type} (c : M A) (k : A -> M B) :
  oblivious c -> (forall a, oblivious (k a)) -> oblivious (bind c k).
Proof.
  intros (l & w & [a|e] & Hc) Hk.
  - destruct (Hk a) as (l' & w' & r & Hka). eexists _, _, _.
    eapply performs_bind; eassumption.
  - eexists _, _, _. eapply performs_bind_raises; eassumption.
Qed.

Lemma oblivious_for_each {A : Type} (xs : list A) (body : A -> M unit) :
  (forall x, oblivious (body x)) -> oblivious (for_each xs body).
Proof.
  intros Hb. induction xs as [|x xs IH]; simpl.
  - apply oblivious_ret.
  - apply oblivious_bind; [apply Hb | intros _; exact IH].
Qed.

Lemma oblivious_for_fold {A B : Type} (xs : list A) (acc : B)
    (body : A -> B -> M B) :
  (forall x b, oblivious (body x b)) -> oblivious (for_fold xs acc body).
Proof.
  intros Hb. revert acc. induction xs as [|x xs IH]; intros acc; simpl.
  - apply oblivious_ret.
  - apply oblivious_bind; [apply Hb | intros acc'; apply IH].
Qed.

Lemma oblivious_collect_file (h : host) (root filename : string)
    (acc : list dict) : oblivious (collect_file h root filename acc).
Proof.
  unfold collect_file.
  destruct (negb (PyStr.endswith filename ".json")); [apply oblivious_ret|].
  destruct (json_load h (os_path_join root filename)) as [[]|e msg];
    try apply oblivious_raise.
  - apply oblivious_bind; [apply oblivious_print|].
    intros _. apply oblivious_ret.
  - destruct (caught e); [|apply oblivious_raise].
    apply oblivious_bind; [apply oblivious_print|].
    intros _. apply oblivious_ret.
Qed.

Lemma oblivious_write_manifest (h : host) (environ : gmap string string)
    (group : json * list dict) : oblivious (write_manifest h environ group).
Proof.
  destruct group as [[] artifacts]; simpl; try apply oblivious_raise.
  apply oblivious_bind; [apply oblivious_open_write|].
  intros _. apply oblivious_print.
Qed.

Lemma oblivious_main (h : host) (environ : gmap string string) :
  oblivious (main h environ).
Proof.
  unfold main.
  apply oblivious_bind; [apply oblivious_print | intros _].
  apply oblivious_bind.
  { apply oblivious_for_each. intros entry. eexists _, _, _.
    apply print_tree_performs. }
  intros _. apply oblivious_bind.
  { apply oblivious_for_fold. intros [[root dirs] files] acc.
    apply oblivious_for_fold. intros f acc'. apply oblivious_collect_file. }
  intros [|a arts]; [apply oblivious_print|].
  apply oblivious_bind; [apply oblivious_print | intros _].
  apply oblivious_bind.
  { apply oblivious_for_fold. intros x b. cbv zeta.
    destruct (hashable (dirname_of x));
      [apply oblivious_ret | apply oblivious_raise]. }
  intros groups. apply oblivious_for_each.
  intros g. apply oblivious_write_manifest.
Qed.

Lemma bind_ext {A B : Type} (c c' : M A) (k k' : A -> M B) (st : state) :
  c st = c' st -> (forall a st', k a st' = k' a st') ->
  bind c k st = bind c' k' st.
Proof.
  intros Hc Hk. unfold bind. rewrite Hc.
  destruct (c' st) as [st' [a|e]]; [apply Hk | reflexivity].
Qed.

Lemma for_each_ext {A : Type} (xs : list A) (body body' : A -> M unit) st :
  (forall x st', body x st' = body' x st') ->
  for_each xs body st = for_each xs body' st.
Proof.
  intros Hb. revert st. induction xs as [|x xs IH]; intros st;
    [reflexivity|].
  simpl. apply bind_ext; [apply Hb | intros _ st'; apply IH].
Qed.

Lemma for_fold_ext_in {A B : Type} (xs : list A) (acc : B)
    (body body' : A -> B -> M B) st :
  (forall x, In x xs -> forall b st', body x b st' = body' x b st') ->
  for_fold xs acc body st = for_fold xs acc body' st.
Proof.
  revert acc st. induction xs as [|x xs IH]; intros acc st Hb;
    [reflexivity|].
  simpl. apply bind_ext; [apply Hb; now left|].
  intros acc' st'. apply IH. intros y Hy. apply Hb. now right.
Qed.

Variables (e1 e2 : gmap string string).
Hypothesis Henv : environ_agree e1 e2.

Lemma agree_get (key dflt : string) :
  In key consumed -> environ_get e1 key dflt = environ_get e2 key dflt.
Proof. intros Hk. unfold environ_get. now rewrite (Henv key Hk). Qed.

Ltac consumed_var := unfold consumed; simpl; tauto.

Lemma agree_KANIKO_ARTIFACTS_DIR :
  KANIKO_ARTIFACTS_DIR e1 = KANIKO_ARTIFACTS_DIR e2.
Proof. apply agree_get. consumed_var. Qed.

Lemma agree_CI_COMMIT_TAG : CI_COMMIT_TAG e1 = CI_COMMIT_TAG e2.
Proof. apply agree_get. consumed_var. Qed.

Lemma agree_CI_PROJECT_ID : CI_PROJECT_ID e1 = CI_PROJECT_ID e2.
Proof. apply agree_get. consumed_var. Qed.

Lemma agree_CI_COMMIT_SHORT_SHA :
  CI_COMMIT_SHORT_SHA e1 = CI_COMMIT_SHORT_SHA e2.
Proof. apply agree_get. consumed_var. Qed.

Lemma agree_CI_COMMIT_REF_SLUG :
  CI_COMMIT_REF_SLUG e1 = CI_COMMIT_REF_SLUG e2.
Proof. apply agree_get. consumed_var. Qed.

Lemma agree_TARGET_PROJECT : TARGET_PROJECT e1 = TARGET_PROJECT e2.
Proof.
  unfold TARGET_PROJECT, CI_COMMIT_REF_PROTECTED.
  rewrite agree_CI_COMMIT_TAG, (agree_get "CI_COMMIT_REF_PROTECTED");
    [reflexivity | consumed_var].
Qed.

Lemma agree_TAGS : TAGS e1 = TAGS e2.
Proof.
  unfold TAGS.
  rewrite agree_CI_COMMIT_TAG, agree_CI_COMMIT_REF_SLUG,
    agree_CI_COMMIT_SHORT_SHA, (agree_get "TAGS");
    [reflexivity | consumed_var].
Qed.

Lemma agree_tags_list : tags_list e1 = tags_list e2.
Proof. unfold tags_list. now rewrite agree_TAGS. Qed.

Variables (h1 h2 : host).
Hypothesis Hhost : host_agree (KANIKO_ARTIFACTS_DIR e1) h1 h2.

Lemma agree_manifest_text (dirname : string) (artifacts : list dict) :
  manifest_text h1 e1 dirname artifacts
  = manifest_text h2 e2 dirname artifacts.
Proof.
  destruct Hhost as (_ & _ & _ & Hstr).
  assert (Hf : forall v, fstr h1 v = fstr h2 v).
  { intros v. destruct v; simpl; try apply Hstr. reflexivity. }
  unfold manifest_text.
  now rewrite agree_TARGET_PROJECT, agree_CI_PROJECT_ID,
    agree_CI_COMMIT_SHORT_SHA, agree_tags_list, !Hf.
Qed.

Lemma agree_write_manifest (group : json * list dict) (st : state) :
  write_manifest h1 e1 group st = write_manifest h2 e2 group st.
Proof.
  destruct Hhost as (_ & _ & Hopen & _).
  destruct group as [[] artifacts]; simpl; try reflexivity.
  rewrite agree_manifest_text. unfold bind, open_write.
  now rewrite Hopen.
Qed.

Lemma agree_collect (st : state) :
  collect h1 (KANIKO_ARTIFACTS_DIR e1) st
  = collect h2 (KANIKO_ARTIFACTS_DIR e1) st.
Proof.
  destruct Hhost as (Hwalk & Hload & _ & _).
  rewrite !collect_paths, <- Hwalk.
  apply for_fold_ext_in. intros p Hp acc st'.
  unfold collect_path. now rewrite (Hload p Hp).
Qed.

Lemma agree_main (st : state) : main h1 e1 st = main h2 e2 st.
Proof.
  unfold main. rewrite <- agree_KANIKO_ARTIFACTS_DIR, <- agree_TAGS.
  destruct Hhost as (Hwalk & _). rewrite <- Hwalk.
  apply bind_ext; [reflexivity | intros _ st1].
  apply bind_ext; [reflexivity | intros _ st2].
  apply bind_ext; [apply agree_collect | intros arts st3].
  destruct arts as [|a arts]; [reflexivity|].
  apply bind_ext; [reflexivity | intros _ st4].
  apply bind_ext; [reflexivity | intros groups st5].
  apply for_each_ext. intros g st6. apply agree_write_manifest.
Qed.

End Determinism.

(** C7: two runs whose environments agree on the variables that are read,
    and whose hosts show the same traversal and the same file contents,
    print the same lines, write the same files with the same contents and
    end alike; and a run started among the files a first run left writes
    them again byte for byte. *)
Theorem main_deterministic (h1 h2 : host) (e1 e2 : gmap string string)
    (st : state) :
  environ_agree e1 e2 ->
  host_agree (KANIKO_ARTIFACTS_DIR e1) h1 h2 ->
  main h1 e1 st = main h2 e2 st
  /\ forall st1 o1,
       main h1 e1 st = (st1, o1) ->
       main h2 e2 (State (stdout st) (cwd st1)) = (st1, o1).
Proof.
  intros Henv Hhost. split; [now apply agree_main|].
  intros st1 o1 Hrun.
  rewrite <- (agree_main e1 e2 Henv h1 h2 Hhost).
  destruct (oblivious_main h1 e1) as (lines & writes & r & Hp).
  rewrite Hp in Hrun. injection Hrun as <- <-.
  rewrite Hp. cbn [stdout cwd]. now rewrite apply_writes_idem.
Qed.

(** ** The theorems on sample inputs *)

(** C1 as stated fails: an artifact whose dockerfiledirname is the empty
    string is grouped under the empty key, and the run writes
    manifest_.yaml and no manifest_unknown_directory.yaml. *)
Lemma grouped_by_dir_empty_dirname_counterexample :
  dict_lookup "dockerfiledirname" artifact_empty_dirname
  = Some (JStr EmptyString)
  /\ grouped_by_dir [artifact_empty_dirname] empty_state
     = (empty_state,
        Returns [(JStr EmptyString, [artifact_empty_dirname])])
  /\ JStr EmptyString <> JStr "unknown_directory"
  /\ snd (main host_empty_dirname ∅ empty_state) = Returns tt
  /\ dom (cwd (fst (main host_empty_dirname ∅ empty_state)))
     = {[ "manifest_.yaml" ]}.
Proof.
  split; [reflexivity|]. split; [reflexivity|]. split; [discriminate|].
  split; [vm_compute; reflexivity|].
  vm_compute. reflexivity.
Qed.

Lemma grouped_by_dir_partition_witness :
  Forall (fun a => hashable (dirname_of a) = true) sample_artifacts
  /\ exists groups,
       grouped_by_dir sample_artifacts empty_state
       = (empty_state, Returns groups)
       /\ (forall a, In a sample_artifacts ->
             exists k members,
               In (k, members) groups /\ In a members
               /\ key_eqb k (dirname_of a) = true
               /\ (dict_lookup "dockerfiledirname" a = None ->
                   k = JStr "unknown_directory")
               /\ (forall s,
                     dict_lookup "dockerfiledirname" a = Some (JStr s) ->
                     k = JStr s))
       /\ (forall k members, In (k, members) groups ->
             members
             = List.filter (fun a => key_eqb k (dirname_of a))
                           sample_artifacts)
       /\ (forall g1 g2, In g1 groups -> In g2 groups ->
             key_eqb (fst g1) (fst g2) = true -> g1 = g2).
Proof.
  assert (H : Forall (fun a => hashable (dirname_of a) = true)
                     sample_artifacts).
  { repeat constructor. }
  split; [exact H|].
  exact (grouped_by_dir_partition sample_artifacts empty_state H).
Defined.

Lemma write_manifest_no_arch_witness :
  Forall (fun a => ~ is_arch "amd64" a /\ ~ is_arch "arm64" a)
         [artifact_s390x]
  /\ open_w host_invalid (manifest_filename "app") = None
  /\ write_manifest host_invalid environ_sha (JStr "app", [artifact_s390x])
       empty_state
     = (State (stdout empty_state
                 ++ ["Generated " +:+ manifest_filename "app" +:+ " for "
                       +:+ "app"])
              (<[manifest_filename "app" :=
                   "image: " +:+ image_ref environ_sha "app" +:+ nl
                     +:+ "tags:" +:+ nl
                     +:+ String.concat EmptyString
                           (map (fun t => "  - " +:+ dquote +:+ t +:+ dquote
                                            +:+ nl)
                                (tags_list environ_sha))
                     +:+ "manifests:" +:+ nl]> (cwd empty_state)),
        Returns tt).
Proof.
  assert (H1 : Forall (fun a => ~ is_arch "amd64" a /\ ~ is_arch "arm64" a)
                      [artifact_s390x]).
  { constructor; [|constructor]. split; discriminate. }
  assert (H2 : open_w host_invalid (manifest_filename "app") = None)
    by reflexivity.
  split; [exact H1|]. split; [exact H2|].
  exact (write_manifest_no_arch host_invalid environ_sha "app"
           [artifact_s390x] empty_state H1 H2).
Defined.

Lemma manifest_filename_overwrite_witness :
  Forall (writable host_invalid)
         ([] ++ (JStr "a/b", []) :: [] ++ (JStr "a_b", []) :: [])
  /\ manifest_filename "a/b" = manifest_filename "a_b"
  /\ Forall (fun g : json * list dict =>
               forall d, fst g = JStr d ->
                 manifest_filename d <> manifest_filename "a_b") []
  /\ exists st1 st2,
       for_each ([] ++ [(JStr "a/b", [])])
                (write_manifest host_invalid environ_sha) empty_state
       = (st1, Returns tt)
       /\ cwd st1 !! manifest_filename "a/b"
          = Some (manifest_text host_invalid environ_sha "a/b" [])
       /\ for_each ([] ++ (JStr "a/b", []) :: [] ++ (JStr "a_b", []) :: [])
                   (write_manifest host_invalid environ_sha) empty_state
          = (st2, Returns tt)
       /\ cwd st2 !! manifest_filename "a/b"
          = Some (manifest_text host_invalid environ_sha "a_b" []).
Proof.
  assert (H1 : Forall (writable host_invalid)
                 ([] ++ (JStr "a/b", []) :: [] ++ (JStr "a_b", []) :: [])).
  { constructor; [|constructor; [|constructor]].
    - exists "a/b". split; reflexivity.
    - exists "a_b". split; reflexivity. }
  assert (H2 : manifest_filename "a/b" = manifest_filename "a_b")
    by reflexivity.
  assert (H3 : Forall (fun g : json * list dict =>
                         forall d, fst g = JStr d ->
                           manifest_filename d <> manifest_filename "a_b") [])
    by constructor.
  split; [exact H1|]. split; [exact H2|]. split; [exact H3|].
  exact (proj2 manifest_filename_overwrite host_invalid environ_sha
           [] [] [] "a/b" "a_b" [] [] empty_state H1 H2 H3).
Defined.



Lemma main_not_object_TypeError_witness :
  In "artifacts/kaniko-build/b.json"
     (json_paths (os_walk host_array (KANIKO_ARTIFACTS_DIR environ_sha)))
  /\ json_load host_array "artifacts/kaniko-build/b.json"
     = Loaded (JArr [JNum 1; JNum 2])
  /\ (forall data, JArr [JNum 1; JNum 2] <> JObj data)
  /\ (forall q e msg,
        In q (json_paths
                (os_walk host_array (KANIKO_ARTIFACTS_DIR environ_sha))) ->
        json_load host_array q = LoadRaises e msg ->
        e = JSONDecodeError \/ e = OSError)
  /\ exists pre q post,
       json_paths (os_walk host_array (KANIKO_ARTIFACTS_DIR environ_sha))
       = pre ++ q :: post
       /\ Forall (benign host_array) pre
       /\ (exists w, json_load host_array q = Loaded w
                     /\ forall data, w <> JObj data)
       /\ main host_array environ_sha empty_state
          = (State (stdout empty_state
                      ++ ["Traversing directory: "
                            +:+ KANIKO_ARTIFACTS_DIR environ_sha]
                      ++ flat_map
                           (tree_lines (KANIKO_ARTIFACTS_DIR environ_sha))
                           (os_walk host_array
                              (KANIKO_ARTIFACTS_DIR environ_sha))
                      ++ map (load_line host_array) pre)
                   (cwd empty_state),
             Raises TypeError).
Proof.
  assert (H1 : In "artifacts/kaniko-build/b.json"
                 (json_paths
                    (os_walk host_array (KANIKO_ARTIFACTS_DIR environ_sha)))).
  { right. left. reflexivity. }
  assert (H2 : json_load host_array "artifacts/kaniko-build/b.json"
               = Loaded (JArr [JNum 1; JNum 2])) by reflexivity.
  assert (H3 : forall data, JArr [JNum 1; JNum 2] <> JObj data)
    by discriminate.
  assert (H4 : forall q e msg,
             In q (json_paths
                     (os_walk host_array
                        (KANIKO_ARTIFACTS_DIR environ_sha))) ->
             json_load host_array q = LoadRaises e msg ->
             e = JSONDecodeError \/ e = OSError).
  { intros q e msg Hq.
    change (In q [ "artifacts/kaniko-build/a.json";
                   "artifacts/kaniko-build/b.json";
                   "artifacts/kaniko-build/c.json" ]) in Hq.
    simpl in Hq. destruct Hq as [<-|[<-|[<-|[]]]]; discriminate. }
  split; [exact H1|]. split; [exact H2|]. split; [exact H3|].
  split; [exact H4|].
  exact (main_not_object_TypeError host_array environ_sha empty_state
           "artifacts/kaniko-build/b.json" (JArr [JNum 1; JNum 2])
           H1 H2 H3 H4).
Defined.

Lemma main_deterministic_witness :
  environ_agree environ_sha environ_sha_home
  /\ host_agree (KANIKO_ARTIFACTS_DIR environ_sha)
                host_two_arch host_two_arch_more
  /\ main host_two_arch environ_sha empty_state
     = main host_two_arch_more environ_sha_home empty_state
  /\ forall st1 o1,
       main host_two_arch environ_sha empty_state = (st1, o1) ->
       main host_two_arch_more environ_sha_home
            (State (stdout empty_state) (cwd st1))
       = (st1, o1).
Proof.
  assert (H1 : environ_agree environ_sha environ_sha_home).
  { intros key Hk. unfold consumed in Hk. simpl in Hk.
    destruct Hk as [<-|[<-|[<-|[<-|[<-|[<-|[<-|[]]]]]]]]; reflexivity. }
  assert (H2 : host_agree (KANIKO_ARTIFACTS_DIR environ_sha)
                          host_two_arch host_two_arch_more).
  { split; [reflexivity|]. split; [|split; reflexivity].
    intros p Hp.
    change (In p [ "artifacts/kaniko-build/a.json";
                   "artifacts/kaniko-build/arm/b.json" ]) in Hp.
    simpl in Hp. destruct Hp as [<-|[<-|[]]]; reflexivity. }
  split; [exact H1|]. split; [exact H2|].
  exact (main_deterministic host_two_arch host_two_arch_more
           environ_sha environ_sha_home empty_state H1 H2).
Defined.

(** ** Further properties of the program *)

Section MoreStrings.

Lemma split_pieces_no_sep (sep : ascii) (s : string) :
  Forall (fun piece => ~ In sep (list_ascii_of_string piece))
         (PyStr.split sep s).
Proof.
  induction s as [|c s IH]; simpl.
  - constructor; [tauto | constructor].
  - destruct (Ascii.eqb_spec c sep) as [->|Hne].
    + constructor; [simpl; tauto | exact IH].
    + destruct (PyStr.split sep s) as [|piece pieces];
        [constructor; [simpl; intuition congruence | constructor]|].
      inversion IH as [|? ? Hp Hps]; subst.
      constructor; [|exact Hps]. simpl. intuition congruence.
Qed.

Lemma lstrip_chars (c : ascii) (s : string) :
  In c (list_ascii_of_string (PyStr.lstrip s)) ->
  In c (list_ascii_of_string s).
Proof.
  induction s as [|x s IH]; simpl; [tauto|].
  destruct (PyStr.isspace x); simpl; auto.
Qed.

Lemma rstrip_chars (c : ascii) (s : string) :
  In c (list_ascii_of_string (PyStr.rstrip s)) ->
  In c (list_ascii_of_string s).
Proof.
  induction s as [|x s IH]; simpl; [tauto|].
  destruct (PyStr.rstrip s) as [|y r]; simpl in *.
  - destruct (PyStr.isspace x); simpl; tauto.
  - intros [H|H]; auto.
Qed.

Lemma strip_chars (c : ascii) (s : string) :
  In c (list_ascii_of_string (PyStr.strip s)) ->
  In c (list_ascii_of_string s).
Proof. intros H. now apply rstrip_chars, lstrip_chars. Qed.

Lemma lstrip_idem (s : string) :
  PyStr.lstrip (PyStr.lstrip s) = PyStr.lstrip s.
Proof.
  induction s as [|x s IH]; simpl; [reflexivity|].
  destruct (PyStr.isspace x) eqn:Ex; [exact IH|].
  simpl. now rewrite Ex.
Qed.

Lemma rstrip_idem (s : string) :
  PyStr.rstrip (PyStr.rstrip s) = PyStr.rstrip s.
Proof.
  induction s as [|x s IH]; simpl; [reflexivity|].
  destruct (PyStr.rstrip s) as [|y r] eqn:Er.
  - destruct (PyStr.isspace x) eqn:Ex; simpl; [reflexivity|].
    now rewrite Ex.
  - simpl. simpl in IH. now rewrite IH.
Qed.

Lemma rstrip_lstrip (s : string) :
  PyStr.rstrip s = s -> PyStr.rstrip (PyStr.lstrip s) = PyStr.lstrip s.
Proof.
  induction s as [|x s IH]; [reflexivity|].
  intros Hs. cbn [PyStr.lstrip].
  destruct (PyStr.isspace x) eqn:Ex; [|exact Hs].
  apply IH. cbn [PyStr.rstrip] in Hs.
  destruct (PyStr.rstrip s) as [|y r].
  - rewrite Ex in Hs. discriminate.
  - now injection Hs.
Qed.

Lemma strip_idem (s : string) : PyStr.strip (PyStr.strip s) = PyStr.strip s.
Proof.
  unfold PyStr.strip.
  rewrite (rstrip_lstrip (PyStr.rstrip s) (rstrip_idem s)).
  apply lstrip_idem.
Qed.

Lemma length_append (a b : string) :
  String.length (a +:+ b) = String.length a + String.length b.
Proof.
  induction a as [|x a IH]; [reflexivity|].
  rewrite append_cons. simpl. now rewrite IH.
Qed.

Lemma append_inj_r (a b s : string) : a +:+ s = b +:+ s -> a = b.
Proof.
  revert b. induction a as [|x a IH]; intros [|y b] H.
  - reflexivity.
  - apply (f_equal String.length) in H.
    rewrite append_nil, append_cons in H. simpl in H.
    rewrite length_append in H. lia.
  - apply (f_equal String.length) in H.
    rewrite append_nil, append_cons in H. simpl in H.
    rewrite length_append in H. lia.
  - rewrite !append_cons in H. injection H as -> H. f_equal. now apply IH.
Qed.

Lemma append_inj_l (s a b : string) : s +:+ a = s +:+ b -> a = b.
Proof.
  induction s as [|x s IH]; [now rewrite !append_nil|].
  rewrite !append_cons. intros [= H]. now apply IH.
Qed.

Lemma str_map_length (f : ascii -> ascii) (s : string) :
  String.length (str_map f s) = String.length s.
Proof. induction s as [|c s IH]; simpl; [reflexivity | now rewrite IH]. Qed.

Lemma str_map_id (f : ascii -> ascii) (s : string) :
  (forall c, In c (list_ascii_of_string s) -> f c = c) -> str_map f s = s.
Proof.
  induction s as [|c s IH]; simpl; intros Hf; [reflexivity|].
  rewrite Hf by now left. f_equal. apply IH. intros c' Hc. apply Hf. now right.
Qed.

Lemma sanitize_char_not_sep (c : ascii) :
  sanitize_char c <> "/"%char /\ sanitize_char c <> "092"%char.
Proof.
  unfold sanitize_char.
  destruct (Ascii.eqb_spec c "/") as [->|H1]; simpl; [split; discriminate|].
  destruct (Ascii.eqb_spec c "092") as [->|H2]; simpl; [split; discriminate|].
  now split.
Qed.

Lemma sanitize_char_fixed (c : ascii) :
  c <> "/"%char -> c <> "092"%char -> sanitize_char c = c.
Proof.
  intros H1 H2. unfold sanitize_char.
  destruct (Ascii.eqb_spec c "/"); [contradiction|].
  destruct (Ascii.eqb_spec c "092"); [contradiction | reflexivity].
Qed.

Lemma str_map_chars (f : ascii -> ascii) (s : string) (c : ascii) :
  In c (list_ascii_of_string (str_map f s)) ->
  exists c0, In c0 (list_ascii_of_string s) /\ c = f c0.
Proof.
  induction s as [|x s IH]; simpl; [tauto|].
  intros [<-|H]; [exists x; auto|].
  destruct (IH H) as (c0 & Hc0 & ->). exists c0. auto.
Qed.

End MoreStrings.

(** X10: every element of the tag list is non-empty, holds no comma and has
    no leading or trailing whitespace. *)
Theorem tags_list_clean (environ : gmap string string) :
  Forall (fun tag =>
            tag <> EmptyString
            /\ ~ In ","%char (list_ascii_of_string tag)
            /\ PyStr.strip tag = tag)
         (tags_list environ).
Proof.
  unfold tags_list.
  pose proof (split_pieces_no_sep "," (TAGS environ)) as Hp.
  induction Hp as [|piece pieces Hpiece _ IH]; simpl; [constructor|].
  destruct (PyStr.truthy (PyStr.strip piece)) eqn:Et; [|exact IH].
  simpl. constructor; [|exact IH].
  split; [now apply truthy_true|].
  split; [|apply strip_idem].
  intros Hin. apply Hpiece. now apply strip_chars.
Qed.

(** X12: the safe name of a key has the length of the key and holds neither
    a slash nor a backslash; a key without them is its own safe name, and
    sanitizing twice changes nothing more. *)
Theorem safe_dirname_no_separator (dirname : string) :
  String.length (safe_dirname dirname) = String.length dirname
  /\ ~ In "/"%char (list_ascii_of_string (safe_dirname dirname))
  /\ ~ In "092"%char (list_ascii_of_string (safe_dirname dirname))
  /\ safe_dirname (safe_dirname dirname) = safe_dirname dirname
  /\ (~ In "/"%char (list_ascii_of_string dirname) ->
      ~ In "092"%char (list_ascii_of_string dirname) ->
      safe_dirname dirname = dirname).
Proof.
  rewrite !safe_dirname_map.
  split; [apply str_map_length|].
  assert (Hno : forall c, In c (list_ascii_of_string
                                  (str_map sanitize_char dirname)) ->
                          c <> "/"%char /\ c <> "092"%char).
  { intros c Hc. apply str_map_chars in Hc as (c0 & _ & ->).
    apply sanitize_char_not_sep. }
  split; [intros H; destruct (Hno _ H) as [H1 H2]; congruence|].
  split; [intros H; destruct (Hno _ H) as [H1 H2]; congruence|].
  split.
  - apply str_map_id. intros c Hc. destruct (Hno c Hc).
    now apply sanitize_char_fixed.
  - intros H1 H2. apply str_map_id. intros c Hc.
    apply sanitize_char_fixed; intros ->; contradiction.
Qed.

(** X11: two keys get the same manifest file name exactly when their safe
    names are equal; keys that hold neither a slash nor a backslash get
    distinct file names unless they are the same key. *)
Theorem manifest_filename_collision (d1 d2 : string) :
  (manifest_filename d1 = manifest_filename d2
   <-> str_map sanitize_char d1 = str_map sanitize_char d2)
  /\ ((forall c, In c (list_ascii_of_string d1 ++ list_ascii_of_string d2) ->
         c <> "/"%char /\ c <> "092"%char) ->
      manifest_filename d1 = manifest_filename d2 -> d1 = d2).
Proof.
  assert (Hiff : manifest_filename d1 = manifest_filename d2
                 <-> str_map sanitize_char d1 = str_map sanitize_char d2).
  { unfold manifest_filename. rewrite !safe_dirname_map. split.
    - intros H. apply append_inj_l in H. now apply append_inj_r in H.
    - now intros ->. }
  split; [exact Hiff|].
  intros Hsep Heq. apply Hiff in Heq.
  rewrite !str_map_id in Heq; [exact Heq | |];
    intros c Hc; apply sanitize_char_fixed; apply Hsep, in_or_app; auto.
Qed.

Section Records.

Lemma dict_lookup_set (key k : string) (v : json) (d : dict) :
  dict_lookup key (dict_set k v d)
  = if String.eqb k key then Some v else dict_lookup key d.
Proof.
  induction d as [|[k0 v0] d IH]; simpl; [reflexivity|].
  destruct (String.eqb_spec k0 k) as [->|Hne]; simpl.
  - now destruct (String.eqb k key).
  - rewrite IH. destruct (String.eqb_spec k0 key) as [->|Hne'];
      [|reflexivity].
    destruct (String.eqb_spec k key); [congruence | reflexivity].
Qed.

Lemma dict_lookup_absent (key : string) (d : dict) :
  ~ In key (map fst d) -> dict_lookup key d = None.
Proof.
  induction d as [|[k0 v0] d IH]; simpl; [reflexivity|].
  intros Hn. destruct (String.eqb_spec k0 key); [tauto|]. apply IH. tauto.
Qed.

Lemma dict_lookup_update (key : string) (base data : dict) :
  List.NoDup (map fst data) ->
  dict_lookup key (dict_update base data)
  = match dict_lookup key data with
    | Some v => Some v
    | None => dict_lookup key base
    end.
Proof.
  unfold dict_update. intros Hnd. revert base.
  induction data as [|[k0 v0] data IH]; intros base; simpl; [reflexivity|].
  simpl in Hnd. apply List.NoDup_cons_iff in Hnd as [Hk0 Hnd].
  rewrite (IH Hnd), dict_lookup_set.
  destruct (String.eqb_spec k0 key) as [->|Hne]; [|reflexivity].
  now rewrite (dict_lookup_absent key data Hk0).
Qed.

End Records.

(** X9: a .json file that decodes to an object with distinct keys is
    collected as one record, printed as valid: a key of the object has the
    value the object gives it, also the key filepath; filepath is the path of
    the file when the object has no such key; no other key is present. *)
Theorem collect_file_record (h : host) (root filename : string)
    (data : dict) (build_artifacts : list dict) (st : state) :
  PyStr.endswith filename ".json" = true ->
  json_load h (os_path_join root filename) = Loaded (JObj data) ->
  List.NoDup (map fst data) ->
  exists artifact,
    collect_file h root filename build_artifacts st
    = (State (stdout st
                ++ ["Valid JSON found: " +:+ os_path_join root filename])
             (cwd st),
       Returns (build_artifacts ++ [artifact]))
    /\ forall key,
         dict_lookup key artifact
         = match dict_lookup key data with
           | Some v => Some v
           | None =>
               if String.eqb "filepath" key
               then Some (JStr (os_path_join root filename))
               else None
           end.
Proof.
  intros Hjson Hload Hnd.
  exists (dict_update [("filepath", JStr (os_path_join root filename))] data).
  split.
  - unfold collect_file. rewrite Hjson, Hload. reflexivity.
  - intros key. now rewrite dict_lookup_update.
Qed.

Section GroupOrder.

Lemma group_append_fst (d : json) (a : dict) (groups : list (json * list dict)) :
  map fst (group_append d a groups)
  = if existsb (fun s => key_eqb s d) (map fst groups)
    then map fst groups
    else map fst groups ++ [d].
Proof.
  induction groups as [|[k arts] gs IH]; simpl; [reflexivity|].
  destruct (key_eqb k d); simpl; [reflexivity|].
  rewrite IH. now destruct (existsb _ (map fst gs)).
Qed.

Lemma group_all_fst (arts : list dict) (groups : list (json * list dict)) :
  map fst (group_all arts groups)
  = map fst groups ++ first_seen (map fst groups) (map dirname_of arts).
Proof.
  unfold group_all. revert groups.
  induction arts as [|a arts IH]; intros groups; simpl.
  - now rewrite app_nil_r.
  - rewrite IH, group_append_fst.
    destruct (existsb _ (map fst groups)); [reflexivity|].
    now rewrite <- app_assoc.
Qed.

Lemma group_append_members (d : json) (a : dict)
    (groups : list (json * list dict)) :
  Permutation (concat (map snd (group_append d a groups)))
              (a :: concat (map snd groups)).
Proof.
  induction groups as [|[k arts] gs IH]; simpl; [reflexivity|].
  destruct (key_eqb k d); simpl.
  - rewrite <- app_assoc. simpl. symmetry. apply Permutation_middle.
  - rewrite IH. symmetry. apply Permutation_middle.
Qed.

Lemma group_all_members_perm (arts : list dict)
    (groups : list (json * list dict)) :
  Permutation (concat (map snd (group_all arts groups)))
              (concat (map snd groups) ++ arts).
Proof.
  unfold group_all. revert groups.
  induction arts as [|a arts IH]; intros groups; simpl.
  - now rewrite app_nil_r.
  - rewrite IH, group_append_members. apply Permutation_middle.
Qed.

Lemma group_append_nonempty (d : json) (a : dict)
    (groups : list (json * list dict)) :
  Forall (fun g => snd g <> []) groups ->
  Forall (fun g => snd g <> []) (group_append d a groups).
Proof.
  induction 1 as [|[k arts] gs Hg Hgs IH]; simpl.
  - constructor; [discriminate | constructor].
  - destruct (key_eqb k d); constructor; try assumption.
    simpl. now destruct arts.
Qed.

Lemma group_all_nonempty (arts : list dict)
    (groups : list (json * list dict)) :
  Forall (fun g => snd g <> []) groups ->
  Forall (fun g => snd g <> []) (group_all arts groups).
Proof.
  unfold group_all. revert groups.
  induction arts as [|a arts IH]; intros groups Hg; [exact Hg|].
  simpl. apply IH. now apply group_append_nonempty.
Qed.

Lemma group_all_keys (P : json -> Prop) (arts : list dict)
    (groups : list (json * list dict)) :
  Forall (fun g => P (fst g)) groups ->
  Forall (fun a => P (dirname_of a)) arts ->
  Forall (fun g => P (fst g)) (group_all arts groups).
Proof.
  unfold group_all. intros Hg Ha. revert groups Hg.
  induction Ha as [|a arts Hd _ IH]; intros groups Hg; [exact Hg|].
  simpl. apply IH. now apply group_append_keys.
Qed.

Lemma grouped_by_dir_raises (arts : list dict) (st : state) :
  Exists (fun a => hashable (dirname_of a) = false) arts ->
  grouped_by_dir arts st = (st, Raises TypeError).
Proof.
  unfold grouped_by_dir. generalize (@nil (json * list dict)) as groups.
  intros groups Hex. revert groups.
  induction arts as [|a arts IH]; intros groups; [inversion Hex|].
  simpl. unfold bind at 1.
  destruct (hashable (dirname_of a)) eqn:Ha.
  - unfold ret at 1. apply IH.
    inversion Hex as [? ? Hbad|? ? Hrest]; subst; [congruence | exact Hrest].
  - reflexivity.
Qed.

End GroupOrder.

(** X7: when every key can be hashed, the groups come in the order in which
    their keys are first met among the artifacts. *)
Theorem grouped_by_dir_first_seen (build_artifacts : list dict) (st : state) :
  Forall (fun a => hashable (dirname_of a) = true) build_artifacts ->
  exists groups,
    grouped_by_dir build_artifacts st = (st, Returns groups)
    /\ map fst groups = first_seen [] (map dirname_of build_artifacts).
Proof.
  intros Hh. exists (group_all build_artifacts []).
  split; [now apply grouped_by_dir_returns|].
  now rewrite group_all_fst.
Qed.

(** X8: when every key can be hashed, the groups together hold every artifact
    once, none is lost and none is added, and no group is empty. *)
Theorem grouped_by_dir_keeps_all (build_artifacts : list dict) (st : state) :
  Forall (fun a => hashable (dirname_of a) = true) build_artifacts ->
  exists groups,
    grouped_by_dir build_artifacts st = (st, Returns groups)
    /\ Permutation (concat (map snd groups)) build_artifacts
    /\ Forall (fun g => snd g <> []) groups.
Proof.
  intros Hh. exists (group_all build_artifacts []).
  split; [now apply grouped_by_dir_returns|].
  split; [apply (group_all_members_perm build_artifacts [])|].
  apply group_all_nonempty. constructor.
Qed.

Section WholeRun.

Context (h : host) (environ : gmap string string).

Let top := KANIKO_ARTIFACTS_DIR environ.
Let paths := json_paths (os_walk h top).

(** The lines of a run up to the end of the collecting loop. *)
Lemma main_collected (lines : list string) (writes : list (string * string))
    (r : outcome unit) (k : list dict -> M unit) :
  Forall (benign h) paths ->
  performs (k (flat_map (load_artifacts h) paths)) lines writes r ->
  (forall st, main h environ st
              = (print ("Traversing directory: " +:+ top) ;;
                 for_each (os_walk h top) (print_tree top) ;;
                 bind (collect h top) k) st) ->
  performs (main h environ)
    (["Traversing directory: " +:+ top]
       ++ flat_map (tree_lines top) (os_walk h top)
       ++ map (load_line h) paths ++ lines)
    writes r.
Proof.
  intros Hb Hk Hmain.
  eapply performs_ext; [exact Hmain|].
  apply (performs_bind _ _ [_] [] tt _ writes); [apply performs_print|].
  apply (performs_bind _ _ _ [] tt _ writes); [apply tree_performs|].
  apply (performs_bind _ _ _ [] (flat_map (load_artifacts h) paths) _ writes);
    [|exact Hk].
  eapply performs_ext; [apply collect_paths|].
  apply (collect_benign h paths [] Hb).
Qed.

End WholeRun.

Section Failures.

Lemma performs_grouped_returns (arts : list dict) :
  Forall (fun a => hashable (dirname_of a) = true) arts ->
  performs (grouped_by_dir arts) [] [] (Returns (group_all arts [])).
Proof.
  intros Hh st. rewrite (grouped_by_dir_returns arts st Hh). simpl.
  now rewrite app_nil_r, state_eta.
Qed.

Lemma performs_grouped_raises (arts : list dict) :
  Exists (fun a => hashable (dirname_of a) = false) arts ->
  performs (grouped_by_dir arts) [] [] (Raises TypeError).
Proof.
  intros Hex st. rewrite (grouped_by_dir_raises arts st Hex). simpl.
  now rewrite app_nil_r, state_eta.
Qed.

(** The writing loop stops at the first group whose body raises. *)
Lemma writer_loop_stops (h : host) (environ : gmap string string)
    (pre post : list (json * list dict)) (g : json * list dict)
    (e : exn_class) :
  Forall (writable h) pre ->
  performs (write_manifest h environ g) [] [] (Raises e) ->
  performs (for_each (pre ++ g :: post) (write_manifest h environ))
           (flat_map group_lines pre)
           (flat_map (group_writes h environ) pre)
           (Raises e).
Proof.
  intros Hpre Hg.
  eapply performs_ext; [intros st; apply for_each_app|].
  eapply performs_eq.
  - eapply performs_bind; [now apply writer_loop_performs|].
    cbn [for_each]. apply performs_bind_raises. exact Hg.
  - apply app_nil_r.
  - apply app_nil_r.
Qed.

Lemma collect_path_uncaught (h : host) (filepath : string) (e : exn_class)
    (msg : string) (acc : list dict) :
  json_load h filepath = LoadRaises e msg ->
  caught e = false ->
  performs (collect_path h filepath acc) [] [] (Raises e).
Proof.
  intros Hl He. unfold collect_path. rewrite Hl, He. apply performs_raise.
Qed.

(** What follows the collecting loop, lines 41-118. *)
Lemma after_collect_writes (h : host) (environ : gmap string string)
    (arts : list dict) :
  arts <> [] ->
  Forall (fun a => hashable (dirname_of a) = true) arts ->
  Forall (writable h) (group_all arts []) ->
  performs
    (match arts with
     | [] => print "No valid JSON artifacts found. Exiting."
     | _ :: _ =>
         print ("TAGS: " +:+ TAGS environ) ;;
         let* groups := grouped_by_dir arts in
         for_each groups (write_manifest h environ)
     end)
    (["TAGS: " +:+ TAGS environ] ++ flat_map group_lines (group_all arts []))
    (flat_map (group_writes h environ) (group_all arts []))
    (Returns tt).
Proof.
  intros Hne Hh Hw. destruct arts as [|a arts']; [contradiction|].
  apply (performs_bind _ _ [_] [] tt _ _); [apply performs_print|].
  apply (performs_bind _ _ [] [] (group_all (a :: arts') []) _ _);
    [now apply performs_grouped_returns|].
  now apply writer_loop_performs.
Qed.

Lemma after_collect_unhashable (h : host) (environ : gmap string string)
    (arts : list dict) :
  Exists (fun a => hashable (dirname_of a) = false) arts ->
  performs
    (match arts with
     | [] => print "No valid JSON artifacts found. Exiting."
     | _ :: _ =>
         print ("TAGS: " +:+ TAGS environ) ;;
         let* groups := grouped_by_dir arts in
         for_each groups (write_manifest h environ)
     end)
    ["TAGS: " +:+ TAGS environ] [] (Raises TypeError).
Proof.
  intros Hex. destruct arts as [|a arts']; [inversion Hex|].
  apply (performs_bind _ _ [_] [] tt [] []); [apply performs_print|].
  apply performs_bind_raises. now apply performs_grouped_raises.
Qed.

End Failures.

(** X1: when every .json file decodes to an object or fails in a way the
    program catches, at least one artifact is collected, and every artifact
    has a string key whose manifest file can be opened, the run returns; it
    prints the tree, one line per .json file, the TAGS line and one Generated
    line per group, and it writes for each group, in the order of the groups,
    the document of the group under its file name. *)
Theorem main_writes_manifests (h : host) (environ : gmap string string)
    (st : state) :
  let top := KANIKO_ARTIFACTS_DIR environ in
  let paths := json_paths (os_walk h top) in
  let build_artifacts := flat_map (load_artifacts h) paths in
  let groups := group_all build_artifacts [] in
  Forall (benign h) paths ->
  build_artifacts <> [] ->
  Forall (fun a => exists dirname,
            dirname_of a = JStr dirname
            /\ open_w h (manifest_filename dirname) = None)
         build_artifacts ->
  main h environ st
  = (State (stdout st
              ++ ["Traversing directory: " +:+ top]
              ++ flat_map (tree_lines top) (os_walk h top)
              ++ map (load_line h) paths
              ++ ["TAGS: " +:+ TAGS environ]
              ++ flat_map group_lines groups)
           (apply_writes (flat_map (group_writes h environ) groups)
                         (cwd st)),
     Returns tt).
Proof.
  intros top paths build_artifacts groups Hb Hne Hkeys.
  assert (Hh : Forall (fun a => hashable (dirname_of a) = true)
                      build_artifacts).
  { eapply Forall_impl; [exact Hkeys|].
    intros a (d & -> & _). reflexivity. }
  assert (Hw : Forall (writable h) groups).
  { apply (group_all_keys
             (fun k => exists d, k = JStr d
                                 /\ open_w h (manifest_filename d) = None));
      [constructor | exact Hkeys]. }
  apply (main_collected h environ
           (["TAGS: " +:+ TAGS environ] ++ flat_map group_lines groups)
           (flat_map (group_writes h environ) groups) (Returns tt)
           (fun build_artifacts =>
              match build_artifacts with
              | [] => print "No valid JSON artifacts found. Exiting."
              | _ :: _ =>
                  print ("TAGS: " +:+ TAGS environ) ;;
                  let* groups := grouped_by_dir build_artifacts in
                  for_each groups (write_manifest h environ)
              end) Hb); [|reflexivity].
  now apply after_collect_writes.
Qed.

(** X2: when the first .json file that is neither collected nor skipped
    fails with an exception that is neither a JSON decoding error nor an OS
    error, the exception ends the run: nothing is printed for the file, no
    file after it is read and no manifest is written. *)
Theorem main_uncaught_load_exception (h : host)
    (environ : gmap string string) (st : state) (pre post : list string)
    (p : string) (e : exn_class) (msg : string) :
  let top := KANIKO_ARTIFACTS_DIR environ in
  json_paths (os_walk h top) = pre ++ p :: post ->
  Forall (benign h) pre ->
  json_load h p = LoadRaises e msg ->
  e <> JSONDecodeError -> e <> OSError ->
  main h environ st
  = (State (stdout st
              ++ ["Traversing directory: " +:+ top]
              ++ flat_map (tree_lines top) (os_walk h top)
              ++ map (load_line h) pre)
           (cwd st),
     Raises e).
Proof.
  intros top Hpaths Hpre Hp He1 He2.
  assert (He : caught e = false) by (destruct e; try reflexivity; congruence).
  assert (Hmain : performs (main h environ)
            (["Traversing directory: " +:+ top]
               ++ flat_map (tree_lines top) (os_walk h top)
               ++ map (load_line h) pre)
            [] (Raises e)).
  { unfold main. fold top.
    apply (performs_bind _ _ [_] [] tt _ []); [apply performs_print|].
    apply (performs_bind _ _ _ [] tt _ []); [apply tree_performs|].
    apply performs_bind_raises.
    eapply performs_ext; [apply collect_paths|]. rewrite Hpaths.
    eapply performs_ext; [intros st0; apply for_fold_app|].
    eapply performs_eq.
    - eapply performs_bind; [now apply collect_benign|].
      cbn [for_fold]. apply performs_bind_raises.
      now apply collect_path_uncaught with msg.
    - apply app_nil_r.
    - reflexivity. }
  apply Hmain.
Qed.

(** X3: when every .json file is collected or skipped and the
    dockerfiledirname of some artifact is a list or an object, the run ends
    with TypeError after the TAGS line, and no manifest is written. *)
Theorem main_unhashable_key (h : host) (environ : gmap string string)
    (st : state) :
  let top := KANIKO_ARTIFACTS_DIR environ in
  let paths := json_paths (os_walk h top) in
  Forall (benign h) paths ->
  Exists (fun a => hashable (dirname_of a) = false)
         (flat_map (load_artifacts h) paths) ->
  main h environ st
  = (State (stdout st
              ++ ["Traversing directory: " +:+ top]
              ++ flat_map (tree_lines top) (os_walk h top)
              ++ map (load_line h) paths
              ++ ["TAGS: " +:+ TAGS environ])
           (cwd st),
     Raises TypeError).
Proof.
  intros top paths Hb Hex.
  apply (main_collected h environ ["TAGS: " +:+ TAGS environ] []
           (Raises TypeError)
           (fun build_artifacts =>
              match build_artifacts with
              | [] => print "No valid JSON artifacts found. Exiting."
              | _ :: _ =>
                  print ("TAGS: " +:+ TAGS environ) ;;
                  let* groups := grouped_by_dir build_artifacts in
                  for_each groups (write_manifest h environ)
              end) Hb); [|reflexivity].
  now apply after_collect_unhashable.
Qed.

(** X4: the writing loop ends with AttributeError at the first group whose
    key is not a string (null, a boolean or a number): the manifests of the
    groups before it are written and reported, none of the groups after it
    is. *)
Theorem writer_key_not_string (h : host) (environ : gmap string string)
    (pre post : list (json * list dict)) (key : json)
    (artifacts : list dict) (st : state) :
  Forall (writable h) pre ->
  (forall dirname, key <> JStr dirname) ->
  for_each (pre ++ (key, artifacts) :: post) (write_manifest h environ) st
  = (State (stdout st ++ flat_map group_lines pre)
           (apply_writes (flat_map (group_writes h environ) pre) (cwd st)),
     Raises AttributeError).
Proof.
  intros Hpre Hkey. apply writer_loop_stops; [exact Hpre|].
  destruct key; simpl; try apply performs_raise. now destruct (Hkey s).
Qed.

(** X5: when the manifest file of a group cannot be opened, the exception of
    open ends the writing loop: the file keeps its content, the group is not
    reported, the groups before it are written and the groups after it are
    not. *)
Theorem writer_open_fails (h : host) (environ : gmap string string)
    (pre post : list (json * list dict)) (dirname : string)
    (artifacts : list dict) (e : exn_class) (st : state) :
  Forall (writable h) pre ->
  open_w h (manifest_filename dirname) = Some e ->
  for_each (pre ++ (JStr dirname, artifacts) :: post)
           (write_manifest h environ) st
  = (State (stdout st ++ flat_map group_lines pre)
           (apply_writes (flat_map (group_writes h environ) pre) (cwd st)),
     Raises e).
Proof.
  intros Hpre Ho. apply writer_loop_stops; [exact Hpre|].
  unfold write_manifest. apply performs_bind_raises.
  now apply performs_open_fails.
Qed.

Section Footprint.

Context (P : string -> Prop).

Lemma within_ret {A : Type} (a : A) : writes_within P (ret a).
Proof. exists [], [], (Returns a). split; [apply performs_ret|constructor]. Qed.

Lemma within_raise {A : Type} (e : exn_class) : writes_within P (@raise A e).
Proof. exists [], [], (Raises e). split; [apply performs_raise|constructor]. Qed.

Lemma within_print (line : string) : writes_within P (print line).
Proof.
  exists [line], [], (Returns tt). split; [apply performs_print|constructor].
Qed.

Lemma within_open_write (h : host) (name content : string) :
  P name -> writes_within P (open_write h name content).
Proof.
  intros Hn. destruct (open_w h name) as [e|] eqn:Ho.
  - exists [], [], (Raises e).
    split; [now apply performs_open_fails | constructor].
  - exists [], [(name, content)], (Returns tt).
    split; [now apply performs_open_write|].
    constructor; [exact Hn | constructor].
Qed.

Lemma within_bind {A B : Type} (c : M A) (k : A -> M B) :
  writes_within P c -> (forall a, writes_within P (k a)) ->
  writes_within P (bind c k).
Proof.
  intros (l & w & [a|e] & Hc & Hw) Hk.
  - destruct (Hk a) as (l' & w' & r & Hka & Hw').
    exists (l ++ l'), (w ++ w'), r. split.
    + eapply performs_bind; eassumption.
    + apply Forall_app. now split.
  - exists l, w, (Raises e). split; [|exact Hw].
    now apply performs_bind_raises.
Qed.

Lemma within_for_each {A : Type} (xs : list A) (body : A -> M unit) :
  (forall x, writes_within P (body x)) -> writes_within P (for_each xs body).
Proof.
  intros Hb. induction xs as [|x xs IH]; simpl.
  - apply within_ret.
  - apply within_bind; [apply Hb | intros _; exact IH].
Qed.

Lemma within_for_fold {A B : Type} (xs : list A) (acc : B)
    (body : A -> B -> M B) :
  (forall x b, writes_within P (body x b)) ->
  writes_within P (for_fold xs acc body).
Proof.
  intros Hb. revert acc. induction xs as [|x xs IH]; intros acc; simpl.
  - apply within_ret.
  - apply within_bind; [apply Hb | intros acc'; apply IH].
Qed.

Lemma last_write_outside (name : string) (writes : list (string * string)) :
  Forall (fun w => P (fst w)) writes -> ~ P name ->
  last_write name writes = None.
Proof.
  intros Hw Hn. induction Hw as [|[n c] ws Hp _ IH]; [reflexivity|].
  simpl. rewrite IH. destruct (String.eqb_spec n name) as [->|]; [|reflexivity].
  contradiction.
Qed.

End Footprint.

Lemma main_within (h : host) (environ : gmap string string) :
  writes_within (fun name => exists dirname, name = manifest_filename dirname)
                (main h environ).
Proof.
  unfold main.
  apply within_bind; [apply within_print | intros _].
  apply within_bind.
  { apply within_for_each. intros [[root dirs] files]. unfold print_tree.
    apply within_bind; [apply within_print | intros _].
    apply within_for_each. intros f. apply within_print. }
  intros _. apply within_bind.
  { apply within_for_fold. intros [[root dirs] files] acc.
    apply within_for_fold. intros f acc'. unfold collect_file.
    destruct (negb (PyStr.endswith f ".json")); [apply within_ret|].
    destruct (json_load h (os_path_join root f)) as [[]|e msg];
      try apply within_raise.
    - apply within_bind; [apply within_print|].
      intros _. apply within_ret.
    - destruct (caught e); [|apply within_raise].
      apply within_bind; [apply within_print|].
      intros _. apply within_ret. }
  intros [|a arts]; [apply within_print|].
  apply within_bind; [apply within_print | intros _].
  apply within_bind.
  { apply within_for_fold. intros x b. cbv zeta.
    destruct (hashable (dirname_of x));
      [apply within_ret | apply within_raise]. }
  intros groups. apply within_for_each.
  intros [[] artifacts]; simpl; try apply within_raise.
  apply within_bind; [|intros _; apply within_print].
  apply within_open_write. now exists s.
Qed.

Lemma prefix_append (a b : string) : String.prefix a (a +:+ b) = true.
Proof.
  induction a as [|x a IH]; [now destruct b|].
  rewrite append_cons. simpl.
  destruct (ascii_dec x x); [exact IH | contradiction].
Qed.

(** X6: whatever the inputs and however the run ends, it only adds lines to
    the output, removes no file, and leaves every file alone whose name is
    not the manifest file name of some key; a file whose name does not start
    with manifest_ is never touched. *)
Theorem main_footprint (h : host) (environ : gmap string string)
    (st : state) :
  let st' := fst (main h environ st) in
  (exists lines, stdout st' = stdout st ++ lines)
  /\ (forall name, is_Some (cwd st !! name) -> is_Some (cwd st' !! name))
  /\ (forall name,
        (forall dirname, name <> manifest_filename dirname) ->
        cwd st' !! name = cwd st !! name)
  /\ (forall name,
        String.prefix "manifest_" name = false ->
        cwd st' !! name = cwd st !! name).
Proof.
  destruct (main_within h environ) as (lines & writes & r & Hp & Hw).
  rewrite Hp. cbn [fst stdout cwd].
  assert (Houtside : forall name,
             (forall dirname, name <> manifest_filename dirname) ->
             apply_writes writes (cwd st) !! name = cwd st !! name).
  { intros name Hn. rewrite apply_writes_lookup.
    rewrite (last_write_outside
               (fun n => exists dirname, n = manifest_filename dirname)
               name writes Hw); [reflexivity|].
    intros (d & ->). now apply (Hn d). }
  split; [now exists lines|]. split; [|split; [exact Houtside|]].
  - intros name Hs. rewrite apply_writes_lookup.
    destruct (last_write name writes); [eauto | exact Hs].
  - intros name Hpre. apply Houtside. intros d ->.
    unfold manifest_filename in Hpre. rewrite prefix_append in Hpre.
    discriminate.
Qed.

(** ** The further properties on sample inputs *)

Lemma main_writes_manifests_witness :
  Forall (benign host_two_arch)
         (json_paths (os_walk host_two_arch
                        (KANIKO_ARTIFACTS_DIR environ_sha)))
  /\ flat_map (load_artifacts host_two_arch)
       (json_paths (os_walk host_two_arch
                      (KANIKO_ARTIFACTS_DIR environ_sha))) <> []
  /\ Forall (fun a => exists dirname,
               dirname_of a = JStr dirname
               /\ open_w host_two_arch (manifest_filename dirname) = None)
       (flat_map (load_artifacts host_two_arch)
          (json_paths (os_walk host_two_arch
                         (KANIKO_ARTIFACTS_DIR environ_sha))))
  /\ main host_two_arch environ_sha empty_state
     = (State (stdout empty_state
                 ++ ["Traversing directory: "
                       +:+ KANIKO_ARTIFACTS_DIR environ_sha]
                 ++ flat_map (tree_lines (KANIKO_ARTIFACTS_DIR environ_sha))
                      (os_walk host_two_arch
                         (KANIKO_ARTIFACTS_DIR environ_sha))
                 ++ map (load_line host_two_arch)
                      (json_paths
                         (os_walk host_two_arch
                            (KANIKO_ARTIFACTS_DIR environ_sha)))
                 ++ ["TAGS: " +:+ TAGS environ_sha]
                 ++ flat_map group_lines
                      (group_all
                         (flat_map (load_artifacts host_two_arch)
                            (json_paths
                               (os_walk host_two_arch
                                  (KANIKO_ARTIFACTS_DIR environ_sha))))
                         []))
              (apply_writes
                 (flat_map (group_writes host_two_arch environ_sha)
                    (group_all
                       (flat_map (load_artifacts host_two_arch)
                          (json_paths
                             (os_walk host_two_arch
                                (KANIKO_ARTIFACTS_DIR environ_sha))))
                       []))
                 (cwd empty_state)),
        Returns tt).
Proof.
  assert (H1 : Forall (benign host_two_arch)
                 (json_paths (os_walk host_two_arch
                                (KANIKO_ARTIFACTS_DIR environ_sha)))).
  { constructor; [|constructor; [|constructor]];
      left; eexists; reflexivity. }
  assert (H2 : flat_map (load_artifacts host_two_arch)
                 (json_paths (os_walk host_two_arch
                                (KANIKO_ARTIFACTS_DIR environ_sha))) <> [])
    by discriminate.
  assert (H3 : Forall (fun a => exists dirname,
                         dirname_of a = JStr dirname
                         /\ open_w host_two_arch (manifest_filename dirname)
                            = None)
                 (flat_map (load_artifacts host_two_arch)
                    (json_paths (os_walk host_two_arch
                                   (KANIKO_ARTIFACTS_DIR environ_sha))))).
  { constructor; [|constructor; [|constructor]];
      exists "app"; split; reflexivity. }
  split; [exact H1|]. split; [exact H2|]. split; [exact H3|].
  exact (main_writes_manifests host_two_arch environ_sha empty_state
           H1 H2 H3).
Defined.

Lemma main_uncaught_load_exception_witness :
  json_paths (os_walk host_undecodable (KANIKO_ARTIFACTS_DIR environ_sha))
  = ["artifacts/kaniko-build/a.json"]
      ++ "artifacts/kaniko-build/b.json" :: []
  /\ Forall (benign host_undecodable) ["artifacts/kaniko-build/a.json"]
  /\ json_load host_undecodable "artifacts/kaniko-build/b.json"
     = LoadRaises UnicodeDecodeError
         "'utf-8' codec can't decode byte 0xff in position 0"
  /\ UnicodeDecodeError <> JSONDecodeError
  /\ UnicodeDecodeError <> OSError
  /\ main host_undecodable environ_sha empty_state
     = (State (stdout empty_state
                 ++ ["Traversing directory: "
                       +:+ KANIKO_ARTIFACTS_DIR environ_sha]
                 ++ flat_map (tree_lines (KANIKO_ARTIFACTS_DIR environ_sha))
                      (os_walk host_undecodable
                         (KANIKO_ARTIFACTS_DIR environ_sha))
                 ++ map (load_line host_undecodable)
                      ["artifacts/kaniko-build/a.json"])
              (cwd empty_state),
        Raises UnicodeDecodeError).
Proof.
  assert (H1 : json_paths
                 (os_walk host_undecodable (KANIKO_ARTIFACTS_DIR environ_sha))
               = ["artifacts/kaniko-build/a.json"]
                   ++ "artifacts/kaniko-build/b.json" :: []) by reflexivity.
  assert (H2 : Forall (benign host_undecodable)
                      ["artifacts/kaniko-build/a.json"]).
  { constructor; [|constructor]. left. eexists. reflexivity. }
  assert (H3 : json_load host_undecodable "artifacts/kaniko-build/b.json"
               = LoadRaises UnicodeDecodeError
                   "'utf-8' codec can't decode byte 0xff in position 0")
    by reflexivity.
  assert (H4 : UnicodeDecodeError <> JSONDecodeError) by discriminate.
  assert (H5 : UnicodeDecodeError <> OSError) by discriminate.
  split; [exact H1|]. split; [exact H2|]. split; [exact H3|].
  split; [exact H4|]. split; [exact H5|].
  exact (main_uncaught_load_exception host_undecodable environ_sha
           empty_state ["artifacts/kaniko-build/a.json"] []
           "artifacts/kaniko-build/b.json" UnicodeDecodeError _
           H1 H2 H3 H4 H5).
Defined.

Lemma main_unhashable_key_witness :
  Forall (benign host_list_key)
         (json_paths (os_walk host_list_key
                        (KANIKO_ARTIFACTS_DIR environ_sha)))
  /\ Exists (fun a => hashable (dirname_of a) = false)
       (flat_map (load_artifacts host_list_key)
          (json_paths (os_walk host_list_key
                         (KANIKO_ARTIFACTS_DIR environ_sha))))
  /\ main host_list_key environ_sha empty_state
     = (State (stdout empty_state
                 ++ ["Traversing directory: "
                       +:+ KANIKO_ARTIFACTS_DIR environ_sha]
                 ++ flat_map (tree_lines (KANIKO_ARTIFACTS_DIR environ_sha))
                      (os_walk host_list_key
                         (KANIKO_ARTIFACTS_DIR environ_sha))
                 ++ map (load_line host_list_key)
                      (json_paths
                         (os_walk host_list_key
                            (KANIKO_ARTIFACTS_DIR environ_sha)))
                 ++ ["TAGS: " +:+ TAGS environ_sha])
              (cwd empty_state),
        Raises TypeError).
Proof.
  assert (H1 : Forall (benign host_list_key)
                 (json_paths (os_walk host_list_key
                                (KANIKO_ARTIFACTS_DIR environ_sha)))).
  { constructor; [|constructor]. left. eexists. reflexivity. }
  assert (H2 : Exists (fun a => hashable (dirname_of a) = false)
                 (flat_map (load_artifacts host_list_key)
                    (json_paths (os_walk host_list_key
                                   (KANIKO_ARTIFACTS_DIR environ_sha))))).
  { apply Exists_cons_hd. reflexivity. }
  split; [exact H1|]. split; [exact H2|].
  exact (main_unhashable_key host_list_key environ_sha empty_state H1 H2).
Defined.

Lemma writer_key_not_string_witness :
  Forall (writable host_invalid) [(JStr "app", [artifact_s390x])]
  /\ (forall dirname, JNum 5 <> JStr dirname)
  /\ for_each ([(JStr "app", [artifact_s390x])]
                 ++ (JNum 5, []) :: [(JStr "web", [])])
              (write_manifest host_invalid environ_sha) empty_state
     = (State (stdout empty_state
                 ++ flat_map group_lines [(JStr "app", [artifact_s390x])])
              (apply_writes
                 (flat_map (group_writes host_invalid environ_sha)
                    [(JStr "app", [artifact_s390x])])
                 (cwd empty_state)),
        Raises AttributeError).
Proof.
  assert (H1 : Forall (writable host_invalid)
                      [(JStr "app", [artifact_s390x])]).
  { constructor; [|constructor]. exists "app". split; reflexivity. }
  assert (H2 : forall dirname, JNum 5 <> JStr dirname) by discriminate.
  split; [exact H1|]. split; [exact H2|].
  exact (writer_key_not_string host_invalid environ_sha
           [(JStr "app", [artifact_s390x])] [(JStr "web", [])]
           (JNum 5) [] empty_state H1 H2).
Defined.

Lemma writer_open_fails_witness :
  Forall (writable host_locked) [(JStr "a", [])]
  /\ open_w host_locked (manifest_filename "b") = Some OSError
  /\ for_each ([(JStr "a", [])] ++ (JStr "b", []) :: [(JStr "c", [])])
              (write_manifest host_locked environ_sha) empty_state
     = (State (stdout empty_state ++ flat_map group_lines [(JStr "a", [])])
              (apply_writes
                 (flat_map (group_writes host_locked environ_sha)
                    [(JStr "a", [])])
                 (cwd empty_state)),
        Raises OSError).
Proof.
  assert (H1 : Forall (writable host_locked) [(JStr "a", [])]).
  { constructor; [|constructor]. exists "a". split; reflexivity. }
  assert (H2 : open_w host_locked (manifest_filename "b") = Some OSError)
    by reflexivity.
  split; [exact H1|]. split; [exact H2|].
  exact (writer_open_fails host_locked environ_sha [(JStr "a", [])]
           [(JStr "c", [])] "b" [] OSError empty_state H1 H2).
Defined.

Lemma grouped_by_dir_first_seen_witness :
  Forall (fun a => hashable (dirname_of a) = true) sample_artifacts
  /\ exists groups,
       grouped_by_dir sample_artifacts empty_state
       = (empty_state, Returns groups)
       /\ map fst groups = first_seen [] (map dirname_of sample_artifacts).
Proof.
  assert (H : Forall (fun a => hashable (dirname_of a) = true)
                     sample_artifacts).
  { repeat constructor. }
  split; [exact H|].
  exact (grouped_by_dir_first_seen sample_artifacts empty_state H).
Defined.

Lemma grouped_by_dir_keeps_all_witness :
  Forall (fun a => hashable (dirname_of a) = true) sample_artifacts
  /\ exists groups,
       grouped_by_dir sample_artifacts empty_state
       = (empty_state, Returns groups)
       /\ Permutation (concat (map snd groups)) sample_artifacts
       /\ Forall (fun g => snd g <> []) groups.
Proof.
  assert (H : Forall (fun a => hashable (dirname_of a) = true)
                     sample_artifacts).
  { repeat constructor. }
  split; [exact H|].
  exact (grouped_by_dir_keeps_all sample_artifacts empty_state H).
Defined.

Lemma collect_file_record_witness :
  PyStr.endswith "a.json" ".json" = true
  /\ json_load host_two_arch (os_path_join "artifacts/kaniko-build" "a.json")
     = Loaded (JObj [ ("dockerfiledirname", JStr "app");
                      ("arch", JStr "amd64"); ("platform", JStr "linux") ])
  /\ List.NoDup (map fst [ ("dockerfiledirname", JStr "app");
                           ("arch", JStr "amd64");
                           ("platform", JStr "linux") ])
  /\ exists artifact,
       collect_file host_two_arch "artifacts/kaniko-build" "a.json" []
                    empty_state
       = (State (stdout empty_state
                   ++ ["Valid JSON found: "
                         +:+ os_path_join "artifacts/kaniko-build" "a.json"])
                (cwd empty_state),
          Returns ([] ++ [artifact]))
       /\ forall key,
            dict_lookup key artifact
            = match dict_lookup key
                      [ ("dockerfiledirname", JStr "app");
                        ("arch", JStr "amd64"); ("platform", JStr "linux") ]
              with
              | Some v => Some v
              | None =>
                  if String.eqb "filepath" key
                  then Some (JStr (os_path_join "artifacts/kaniko-build"
                                                "a.json"))
                  else None
              end.
Proof.
  assert (H1 : PyStr.endswith "a.json" ".json" = true) by reflexivity.
  assert (H2 : json_load host_two_arch
                 (os_path_join "artifacts/kaniko-build" "a.json")
               = Loaded (JObj [ ("dockerfiledirname", JStr "app");
                                ("arch", JStr "amd64");
                                ("platform", JStr "linux") ]))
    by reflexivity.
  assert (H3 : List.NoDup (map fst [ ("dockerfiledirname", JStr "app");
                                     ("arch", JStr "amd64");
                                     ("platform", JStr "linux") ])).
  { simpl. repeat constructor; simpl; intuition discriminate. }
  split; [exact H1|]. split; [exact H2|]. split; [exact H3|].
  exact (collect_file_record host_two_arch "artifacts/kaniko-build" "a.json"
           _ [] empty_state H1 H2 H3).
Defined.

Lemma manifest_filename_collision_witness :
  (forall c, In c (list_ascii_of_string "app" ++ list_ascii_of_string "app") ->
     c <> "/"%char /\ c <> "092"%char)
  /\ manifest_filename "app" = manifest_filename "app"
  /\ "app" = "app".
Proof.
  assert (H1 : forall c,
             In c (list_ascii_of_string "app" ++ list_ascii_of_string "app") ->
             c <> "/"%char /\ c <> "092"%char).
  { simpl. intros c [<-|[<-|[<-|[<-|[<-|[<-|[]]]]]]]; split; discriminate. }
  assert (H2 : manifest_filename "app" = manifest_filename "app")
    by reflexivity.
  split; [exact H1|]. split; [exact H2|].
  exact (proj2 (manifest_filename_collision "app" "app") H1 H2).
Defined.

Lemma safe_dirname_no_separator_witness :
  ~ In "/"%char (list_ascii_of_string "app")
  /\ ~ In "092"%char (list_ascii_of_string "app")
  /\ safe_dirname "app" = "app".
Proof.
  assert (H1 : ~ In "/"%char (list_ascii_of_string "app")).
  { simpl. intros [H|[H|[H|[]]]]; discriminate. }
  assert (H2 : ~ In "092"%char (list_ascii_of_string "app")).
  { simpl. intros [H|[H|[H|[]]]]; discriminate. }
  split; [exact H1|]. split; [exact H2|].
  exact (proj2 (proj2 (proj2 (proj2 (safe_dirname_no_separator "app"))))
           H1 H2).
Defined.
